(** * The DMMF transformation of the Prisma client generator

    A shallow embedding of [transformDmmf] and of the passes it is made of:
    the where-pass ([transformWhereInputTypes]) with its factory of filter
    types, the order-pass ([transformOrderInputTypes]) and the two finishing
    filters ([filterInputTypes], [filterOutputTypes]).

    JavaScript strings are modelled by [string]; arrays by [list]; optional
    properties of an object by [option]; the dictionary of filter types, whose
    enumeration order ([Object.values]) is the order of insertion, by an
    association list. *)

From Stdlib Require Import String Ascii List Bool Arith ZArith Lia.
Import ListNotations.

Local Open Scope string_scope.
Local Open Scope list_scope.

(** ** The string methods the transformation calls *)

Module Js.

(** [s.endsWith(suffix)]: the last [length suffix] characters of [s] are
    [suffix]; false when [s] is the shorter one. *)
Definition endsWith (s suffix : string) : bool :=
  (String.length suffix <=? String.length s)%nat &&
  (substring (String.length s - String.length suffix) (String.length suffix) s
     =? suffix).

(** [s.includes(sub)]: [sub] occurs at some position of [s]. *)
Fixpoint includes (s sub : string) : bool :=
  String.prefix sub s ||
  match s with
  | EmptyString => false
  | String _ rest => includes rest sub
  end.

(** The search of [lastIndexOf], from position [k] downwards. *)
Fixpoint lastIndexOfFrom (s sub : string) (k : nat) : Z :=
  if substring k (String.length sub) s =? sub then Z.of_nat k
  else match k with
       | O => (-1)%Z
       | S k' => lastIndexOfFrom s sub k'
       end.

(** [s.lastIndexOf(sub)]: the greatest position at which [sub] occurs in
    [s], and [-1] when there is none. *)
Definition lastIndexOf (s sub : string) : Z :=
  if (String.length sub <=? String.length s)%nat
  then lastIndexOfFrom s sub (String.length s - String.length sub)
  else (-1)%Z.

(** How [slice] reads one of its positions: a negative one counts from the
    end of the string, and both are clamped to the string. *)
Definition clamp (len i : Z) : Z :=
  if (i <? 0)%Z then Z.max (len + i) 0 else Z.min i len.

(** [s.slice(from, to)]. *)
Definition slice (s : string) (from to : Z) : string :=
  let len := Z.of_nat (String.length s) in
  let a := clamp len from in
  let b := clamp len to in
  substring (Z.to_nat a) (Z.to_nat (b - a)) s.

(** [names.includes(x)] on an array of strings. *)
Definition arrayIncludes (names : list string) (x : string) : bool :=
  existsb (String.eqb x) names.

End Js.

(** ** The data model (the types of [DMMF]) *)

Inductive FieldKind : Type := scalar | relation | enum.

Definition isRelation (k : FieldKind) : bool :=
  match k with relation => true | _ => false end.

Module Field.
Record t : Type := mk {
  name : string;
  type : string;
  kind : FieldKind;
  isList : bool;
  isRequired : bool
}.
End Field.

Module Model.
Record t : Type := mk {
  name : string;
  fields : list Field.t
}.
End Model.

Module Enum.
Record t : Type := mk {
  name : string;
  values : list string
}.
End Enum.

Module SchemaArg.
(** [isRelationFilter] is an optional property: [None] when the object has
    no such property. *)
Record t : Type := mk {
  name : string;
  type : list string;
  isList : bool;
  isRequired : bool;
  isEnum : bool;
  isScalar : bool;
  isRelationFilter : option bool
}.

(** The object spread [{ ...a, isRelationFilter: true }]. *)
Definition markRelationFilter (a : t) : t :=
  mk (name a) (type a) (isList a) (isRequired a) (isEnum a) (isScalar a)
     (Some true).
End SchemaArg.

Module InputType.
Record t : Type := mk {
  name : string;
  args : list SchemaArg.t;
  atLeastOne : option bool;
  atMostOne : option bool;
  isWhereType : option bool;
  isOrderType : option bool
}.
End InputType.

(** The parts of a document the transformation never looks into (mappings,
    queries, mutations, the body of an output type) are values of a type [V]
    that is left open. *)

Module OutputType.
Record t {V : Type} : Type := mk {
  name : string;
  body : V
}.
Arguments t : clear implicits.
End OutputType.

Module Datamodel.
Record t : Type := mk {
  models : list Model.t
}.
End Datamodel.

Module Schema.
Record t {V : Type} : Type := mk {
  enums : list Enum.t;
  queries : V;
  mutations : V;
  outputTypes : list (OutputType.t V);
  inputTypes : list InputType.t
}.
Arguments t : clear implicits.
End Schema.

Module Document.
Record t {V : Type} : Type := mk {
  datamodel : Datamodel.t;
  mappings : V;
  schema : Schema.t V
}.
Arguments t : clear implicits.
End Document.

(** ** The factory of filter types *)

Definition getFilterName (type : string) (isRequired : bool) : string :=
  (if isRequired then "" else "Nullable") ++ type ++ "Filter".

Definition getWhereInputName (type : string) : string :=
  type ++ "WhereInput".

(** [isRelationFilter] is not set by [getScalarArg]. *)
Definition getScalarArg (name : string) (type : list string) (isList : bool)
  : SchemaArg.t :=
  {| SchemaArg.name := name;
     SchemaArg.isEnum := false;
     SchemaArg.isList := isList;
     SchemaArg.isRequired := false;
     SchemaArg.isScalar := true;
     SchemaArg.type := type;
     SchemaArg.isRelationFilter := None |}.

Definition getScalarArgs (names : list string) (type : list string)
  (isList : bool) : list SchemaArg.t :=
  map (fun name => getScalarArg name type isList) names.

Definition getInclusionFilters (type : string) : list SchemaArg.t :=
  getScalarArgs ["in"; "notIn"] [type] true.

Definition getAlphanumericFilters (type : string) : list SchemaArg.t :=
  getScalarArgs ["lt"; "lte"; "gt"; "gte"] [type] false.

Definition getStringFilters (type : string) : list SchemaArg.t :=
  getScalarArgs ["contains"; "startsWith"; "endsWith"] [type] false.

Definition getBaseFilters (type : string) (isRequired : bool)
  : list SchemaArg.t :=
  let filterName := getFilterName type isRequired in
  let nullArray := if isRequired then [] else ["null"] in
  getScalarArgs ["equals"] (type :: nullArray) false ++
  getScalarArgs ["not"] (type :: nullArray ++ [filterName]) false.

(** The third parameter has the default value [false] in the source; the only
    caller, [makeFilterType], leaves it out. *)
Definition getScalarFilterArgs (type : string) (isRequired isEnum : bool)
  : list SchemaArg.t :=
  if isEnum then getBaseFilters type isRequired ++ getInclusionFilters type
  else if (type =? "String") || (type =? "ID") || (type =? "UUID") then
    getBaseFilters type isRequired ++ getInclusionFilters type ++
    getAlphanumericFilters type ++ getStringFilters type
  else if (type =? "Int") || (type =? "Float") || (type =? "DateTime") then
    getBaseFilters type isRequired ++ getInclusionFilters type ++
    getAlphanumericFilters type
  else if type =? "Boolean" then getBaseFilters type isRequired
  else [].

Definition getRelationFilterArgs (type : string) : list SchemaArg.t :=
  getScalarArgs ["every"; "some"; "none"] [getWhereInputName type] false.

Definition makeFilterType (type : string) (isRequired isScalar : bool)
  : InputType.t :=
  {| InputType.name := getFilterName type (isRequired || negb isScalar);
     InputType.args :=
       if isScalar then getScalarFilterArgs type isRequired false
       else getRelationFilterArgs type;
     InputType.atLeastOne := Some true;
     InputType.atMostOne := None;
     InputType.isWhereType := None;
     InputType.isOrderType := None |}.

(** ** The dictionary of filter types

    [filterTypes] is a JavaScript object used as a dictionary.  Every key it
    is given is built by [getFilterName] and so ends in [Filter]: it is
    neither an array index nor the name of a property inherited from
    [Object.prototype], hence reading a key that was never written yields
    [undefined] and [Object.values] lists the values in the order in which
    their keys were first written. *)

Definition FilterTypes : Type := list (string * InputType.t).

(** [filterTypes[key]]. *)
Fixpoint dictGet (key : string) (d : FilterTypes) : option InputType.t :=
  match d with
  | [] => None
  | (k, v) :: rest => if k =? key then Some v else dictGet key rest
  end.

(** [filterTypes[key] = v]: a key already present keeps its place. *)
Fixpoint dictSet (key : string) (v : InputType.t) (d : FilterTypes)
  : FilterTypes :=
  match d with
  | [] => [(key, v)]
  | (k, w) :: rest =>
      if k =? key then (k, v) :: rest else (k, w) :: dictSet key v rest
  end.

(** [Object.values(filterTypes)]. *)
Definition dictValues (d : FilterTypes) : list InputType.t := map snd d.

(** ** The where-pass *)

(** The fields that get an arg of their own: the relations that are lists and
    the other fields that are not. *)
Definition hasFilterArg (f : Field.t) : bool :=
  if isRelation (Field.kind f) then Field.isList f else negb (Field.isList f).

(** The relations that are not lists; their names join the white list. *)
Definition isSingleRelation (f : Field.t) : bool :=
  isRelation (Field.kind f) && negb (Field.isList f).

(** The callback of [map] over the fields: it registers the filter type of
    the field when the dictionary has none under that name, and returns the
    arg of the field. *)
Definition fieldFilterArg (f : Field.t) (filterTypes : FilterTypes)
  : SchemaArg.t * FilterTypes :=
  let rel := isRelation (Field.kind f) in
  let key := getFilterName (Field.type f) (Field.isRequired f || rel) in
  let filterTypes' :=
    match dictGet key filterTypes with
    | Some _ => filterTypes
    | None =>
        dictSet key
          (makeFilterType (Field.type f) (Field.isRequired f) (negb rel))
          filterTypes
    end in
  let typeList :=
    (if negb rel then [Field.type f] else []) ++
    [key] ++
    (if negb (Field.isRequired f) && negb rel then ["null"] else []) in
  ({| SchemaArg.name := Field.name f;
      SchemaArg.type := typeList;
      SchemaArg.isScalar := false;
      SchemaArg.isRequired := false;
      SchemaArg.isEnum := false;
      SchemaArg.isList := false;
      SchemaArg.isRelationFilter := Some false |},
   filterTypes').

(** [fields.map(...)], the dictionary threaded from one field to the next. *)
Fixpoint mapFields (fields : list Field.t) (filterTypes : FilterTypes)
  : list SchemaArg.t * FilterTypes :=
  match fields with
  | [] => ([], filterTypes)
  | f :: rest =>
      let (a, filterTypes1) := fieldFilterArg f filterTypes in
      let (others, filterTypes2) := mapFields rest filterTypes1 in
      (a :: others, filterTypes2)
  end.

Definition whiteListOf (model : Model.t) : list string :=
  ["AND"; "OR"; "NOT"] ++
  map Field.name (filter isSingleRelation (Model.fields model)).

Definition findModel (models : list Model.t) (modelName : string)
  : option Model.t :=
  find (fun m => Model.name m =? modelName) models.

(** The body of the loop over the input types; the state is the array
    [inputTypes] being filled and the dictionary [filterTypes]. *)
Definition whereStep (models : list Model.t)
  (st : list InputType.t * FilterTypes) (type : InputType.t)
  : list InputType.t * FilterTypes :=
  let (inputTypes, filterTypes) := st in
  if negb (Js.endsWith (InputType.name type) "WhereInput") then
    (inputTypes ++ [type], filterTypes)
  else
    let index := Js.lastIndexOf (InputType.name type) "WhereInput" in
    let modelName := Js.slice (InputType.name type) 0 index in
    match findModel models modelName with
    | None => (inputTypes ++ [type], filterTypes)
    | Some model =>
        let whiteList := whiteListOf model in
        let args :=
          map SchemaArg.markRelationFilter
            (filter (fun a => Js.arrayIncludes whiteList (SchemaArg.name a))
               (InputType.args type)) in
        let (fieldArgs, filterTypes') :=
          mapFields (filter hasFilterArg (Model.fields model)) filterTypes in
        let newType :=
          {| InputType.name := InputType.name type;
             InputType.args := fieldArgs ++ args;
             InputType.isWhereType := Some true;
             InputType.atLeastOne := Some true;
             InputType.atMostOne := None;
             InputType.isOrderType := None |} in
        (inputTypes ++ [newType], filterTypes')
    end.

Definition whereLoop (models : list Model.t) (types : list InputType.t)
  : list InputType.t * FilterTypes :=
  fold_left (whereStep models) types ([], []).

(** ** The order-pass *)

Definition OrderByArg : Enum.t :=
  {| Enum.name := "OrderByArg"; Enum.values := ["asc"; "desc"] |}.

(** The [reduce] over the values of an enum. *)
Definition orderArgNames (values : list string) : list string :=
  fold_left
    (fun acc curr =>
       if Js.endsWith curr "ASC" then
         let index := Js.lastIndexOf curr "_ASC" in
         acc ++ [Js.slice curr 0 index]
       else acc)
    values [].

Definition orderArg (name : string) : SchemaArg.t :=
  {| SchemaArg.name := name;
     SchemaArg.type := ["OrderByArg"];
     SchemaArg.isEnum := false;
     SchemaArg.isList := false;
     SchemaArg.isRelationFilter := Some false;
     SchemaArg.isRequired := false;
     SchemaArg.isScalar := true |}.

Definition orderInputType (type : Enum.t) : InputType.t :=
  {| InputType.name := Enum.name type;
     InputType.atLeastOne := Some true;
     InputType.atMostOne := Some true;
     InputType.isOrderType := Some true;
     InputType.isWhereType := None;
     InputType.args := map orderArg (orderArgNames (Enum.values type)) |}.

(** The body of the loop over the enums; the state is the array [inputTypes]
    (the one of the document, which [push] extends) and the array [enums]. *)
Definition orderStep (st : list InputType.t * list Enum.t) (type : Enum.t)
  : list InputType.t * list Enum.t :=
  let (inputTypes, enums) := st in
  if negb (Js.endsWith (Enum.name type) "OrderByInput") then
    (inputTypes, enums ++ [type])
  else (inputTypes ++ [orderInputType type], enums).

(** ** The finisher *)

(** Modelled from the spec: [uniqBy] is imported from [./utils/common], which
    is not among the sources.  The spec describes its use as "deduplicate
    ... by name, first occurrence wins": an element is kept when no earlier
    element has its key.  [seen] holds the keys met so far. *)
Fixpoint uniqByFrom {T : Type} (seen : list string) (arr : list T)
  (iteratee : T -> string) : list T :=
  match arr with
  | [] => []
  | x :: rest =>
      if Js.arrayIncludes seen (iteratee x) then uniqByFrom seen rest iteratee
      else x :: uniqByFrom (iteratee x :: seen) rest iteratee
  end.

(** Modelled from the spec: see [uniqByFrom]. *)
Definition uniqBy {T : Type} (arr : list T) (iteratee : T -> string)
  : list T :=
  uniqByFrom [] arr iteratee.

Definition filterInputTypes (types : list InputType.t) : list InputType.t :=
  filter
    (fun o =>
       negb (Js.includes (InputType.name o) "Subscription") &&
       negb (InputType.name o =? "MutationType"))
    (uniqBy types InputType.name).

Section Passes.

Context {V : Type}.

Definition filterOutputTypes (types : list (OutputType.t V))
  : list (OutputType.t V) :=
  filter
    (fun o =>
       negb (Js.endsWith (OutputType.name o) "PreviousValues") &&
       negb (Js.includes (OutputType.name o) "Subscription"))
    (uniqBy types OutputType.name).

Definition transformWhereInputTypes (document : Document.t V)
  : Document.t V :=
  let types := Schema.inputTypes (Document.schema document) in
  let (inputTypes, filterTypes) :=
    whereLoop (Datamodel.models (Document.datamodel document)) types in
  let scalarFilters := dictValues filterTypes in
  {| Document.datamodel := Document.datamodel document;
     Document.mappings := Document.mappings document;
     Document.schema :=
       {| Schema.enums := Schema.enums (Document.schema document);
          Schema.queries := Schema.queries (Document.schema document);
          Schema.mutations := Schema.mutations (Document.schema document);
          Schema.outputTypes :=
            Schema.outputTypes (Document.schema document);
          Schema.inputTypes := inputTypes ++ scalarFilters |} |}.

Definition transformOrderInputTypes (document : Document.t V)
  : Document.t V :=
  let (inputTypes, enums) :=
    fold_left orderStep (Schema.enums (Document.schema document))
      (Schema.inputTypes (Document.schema document), [OrderByArg]) in
  {| Document.datamodel := Document.datamodel document;
     Document.mappings := Document.mappings document;
     Document.schema :=
       {| Schema.enums := enums;
          Schema.queries := Schema.queries (Document.schema document);
          Schema.mutations := Schema.mutations (Document.schema document);
          Schema.outputTypes :=
            Schema.outputTypes (Document.schema document);
          Schema.inputTypes := inputTypes |} |}.

Definition transformDmmf (document : Document.t V) : Document.t V :=
  let doc := transformOrderInputTypes (transformWhereInputTypes document) in
  {| Document.datamodel := Document.datamodel doc;
     Document.mappings := Document.mappings doc;
     Document.schema :=
       {| Schema.enums := Schema.enums (Document.schema doc);
          Schema.queries := Schema.queries (Document.schema doc);
          Schema.mutations := Schema.mutations (Document.schema doc);
          Schema.outputTypes :=
            filterOutputTypes (Schema.outputTypes (Document.schema doc));
          Schema.inputTypes :=
            filterInputTypes (Schema.inputTypes (Document.schema doc)) |} |}.

End Passes.

(** ** Notions used to state the properties *)

(** The arg the where-pass builds for a field: the first component of
    [fieldFilterArg], which does not depend on the dictionary. *)
Definition fieldArg (f : Field.t) : SchemaArg.t := fst (fieldFilterArg f []).

(** The nullability class of a field, as [fieldFilterArg] computes it. *)
Definition requiredEffective (f : Field.t) : bool :=
  Field.isRequired f || isRelation (Field.kind f).

(** The key under which the filter type of a field is kept. *)
Definition fieldFilterName (f : Field.t) : string :=
  getFilterName (Field.type f) (requiredEffective f).

(** The original args of a where-type that the white list of its model
    retains, marked as the where-pass marks them. *)
Definition retainedArgs (model : Model.t) (type : InputType.t)
  : list SchemaArg.t :=
  map SchemaArg.markRelationFilter
    (filter (fun a => Js.arrayIncludes (whiteListOf model) (SchemaArg.name a))
       (InputType.args type)).

(** The model a where-type is resolved to, if any. *)
Definition modelOf (models : list Model.t) (type : InputType.t)
  : option Model.t :=
  if Js.endsWith (InputType.name type) "WhereInput" then
    findModel models
      (Js.slice (InputType.name type) 0
         (Js.lastIndexOf (InputType.name type) "WhereInput"))
  else None.

(** The fields of the model of a where-type that pass through
    [fieldFilterArg]. *)
Definition filteredFields (models : list Model.t) (type : InputType.t)
  : list Field.t :=
  match modelOf models type with
  | Some model => filter hasFilterArg (Model.fields model)
  | None => []
  end.

(** What the where-pass puts in the place of an input type. *)
Definition rewrittenType (models : list Model.t) (type : InputType.t)
  : InputType.t :=
  match modelOf models type with
  | Some model =>
      {| InputType.name := InputType.name type;
         InputType.args :=
           map fieldArg (filter hasFilterArg (Model.fields model)) ++
           retainedArgs model type;
         InputType.isWhereType := Some true;
         InputType.atLeastOne := Some true;
         InputType.atMostOne := None;
         InputType.isOrderType := None |}
  | None => type
  end.

(** The enums the order-pass turns into input types. *)
Definition isOrderByInput (type : Enum.t) : bool :=
  Js.endsWith (Enum.name type) "OrderByInput".

(** A dictionary in which every filter type is kept under its own name and
    no key occurs twice. *)
Definition wellKeyed (d : FilterTypes) : Prop :=
  NoDup (map fst d) /\ Forall (fun kv => InputType.name (snd kv) = fst kv) d.

(** The fields for which the where-pass of a document builds an arg. *)
Definition Synthesized {V : Type} (document : Document.t V) (f : Field.t)
  : Prop :=
  exists type,
    In type (Schema.inputTypes (Document.schema document)) /\
    In f (filteredFields
            (Datamodel.models (Document.datamodel document)) type).

(** How often a name occurs among the names of a list of input types. *)
Definition countName (name : string) (types : list InputType.t) : nat :=
  List.length (filter (fun t => InputType.name t =? name) types).

(** How often a name occurs among the names of a list of enums. *)
Definition countEnum (name : string) (enums : list Enum.t) : nat :=
  List.length (filter (fun e => Enum.name e =? name) enums).

(** ** The documents of the scenarios *)

(** The entity [User] of the scenario: [id: ID!], [name: String], [posts], a
    list relation to [Post], and [profile], a single relation to [Profile].
    Whether the two relations are required is left open. *)
Definition userModel (postsRequired profileRequired : bool) : Model.t :=
  {| Model.name := "User";
     Model.fields :=
       [ Field.mk "id" "ID" scalar false true;
         Field.mk "name" "String" scalar false false;
         Field.mk "posts" "Post" relation true postsRequired;
         Field.mk "profile" "Profile" relation false profileRequired ] |}.

(** An arg as the introspection step hands it over, with [isRelationFilter]
    not set. *)
Definition plainArg (name type : string) : SchemaArg.t :=
  {| SchemaArg.name := name;
     SchemaArg.type := [type];
     SchemaArg.isList := false;
     SchemaArg.isRequired := false;
     SchemaArg.isEnum := false;
     SchemaArg.isScalar := false;
     SchemaArg.isRelationFilter := None |}.

Definition plainInputType (name : string) (args : list SchemaArg.t)
  : InputType.t :=
  {| InputType.name := name;
     InputType.args := args;
     InputType.atLeastOne := None;
     InputType.atMostOne := None;
     InputType.isWhereType := None;
     InputType.isOrderType := None |}.

(** A document with the given models, enums and input types and nothing
    else. *)
Definition documentOf (models : list Model.t) (enums : list Enum.t)
  (inputTypes : list InputType.t) : Document.t unit :=
  {| Document.datamodel := {| Datamodel.models := models |};
     Document.mappings := tt;
     Document.schema :=
       {| Schema.enums := enums;
          Schema.queries := tt;
          Schema.mutations := tt;
          Schema.outputTypes := [];
          Schema.inputTypes := inputTypes |} |}.

(** The scenario of the entity [User]. *)
Definition userDocument : Document.t unit :=
  documentOf [userModel false false] []
    [plainInputType "UserWhereInput"
       [plainArg "AND" "UserWhereInput"; plainArg "OR" "UserWhereInput";
        plainArg "NOT" "UserWhereInput"; plainArg "profile" "ProfileWhereInput"]].

(** A model whose field [role] has the enum [Role] as its type. *)
Definition accountModel : Model.t :=
  {| Model.name := "Account";
     Model.fields := [ Field.mk "role" "Role" enum false true ] |}.

Definition accountDocument : Document.t unit :=
  documentOf [accountModel] [] [plainInputType "AccountWhereInput" []].

(** A model with two optional fields of type [String] and a where-type that
    no model answers to. *)
Definition personModel : Model.t :=
  {| Model.name := "Person";
     Model.fields :=
       [ Field.mk "first" "String" scalar false false;
         Field.mk "last" "String" scalar false false;
         Field.mk "tags" "String" scalar true false ] |}.

Definition personDocument : Document.t unit :=
  documentOf [personModel] []
    [plainInputType "PersonWhereInput" [plainArg "AND" "PersonWhereInput"];
     plainInputType "GhostWhereInput" [plainArg "AND" "GhostWhereInput"]].

(** An order-by enum one of whose values ends in [ASC] without the
    underscore. *)
Definition looseOrderDocument : Document.t unit :=
  documentOf [] [Enum.mk "UserOrderByInput" ["id_ASC"; "id_DESC"; "ASC"]] [].

(** A document that already has an enum named [OrderByArg]. *)
Definition orderedDocument : Document.t unit :=
  documentOf [] [Enum.mk "OrderByArg" ["asc"; "desc"]] [].

(** A document with one order-by enum and one other enum. *)
Definition roleDocument : Document.t unit :=
  documentOf []
    [Enum.mk "Role" ["ADMIN"; "USER"];
     Enum.mk "UserOrderByInput" ["id_ASC"; "id_DESC"]] [].

(** A document with change-event types and with two types of one name. *)
Definition eventDocument : Document.t unit :=
  {| Document.datamodel := {| Datamodel.models := [] |};
     Document.mappings := tt;
     Document.schema :=
       {| Schema.enums := [];
          Schema.queries := tt;
          Schema.mutations := tt;
          Schema.outputTypes :=
            [ OutputType.mk unit "User" tt;
              OutputType.mk unit "UserPreviousValues" tt;
              OutputType.mk unit "UserSubscriptionPayload" tt;
              OutputType.mk unit "User" tt ];
          Schema.inputTypes :=
            [ plainInputType "UserCreateInput" [];
              plainInputType "MutationType" [];
              plainInputType "UserSubscriptionWhereInput" [];
              plainInputType "UserCreateInput" [plainArg "id" "ID"] ] |} |}.

(** ** Further notions used to state properties *)

(** The filter type [fieldFilterArg] builds for a field when the dictionary
    has none under the name of the field's filter. *)
Definition filterTypeOf (f : Field.t) : InputType.t :=
  makeFilterType (Field.type f) (Field.isRequired f)
    (negb (isRelation (Field.kind f))).

(** The fields that pass through [fieldFilterArg] in the where-pass, in the
    order in which they do. *)
Definition processedFields (models : list Model.t)
  (types : list InputType.t) : list Field.t :=
  flat_map (filteredFields models) types.

(** The base types for which [getScalarFilterArgs] has operators. *)
Definition textTypes : list string := ["String"; "ID"; "UUID"].
Definition orderedTypes : list string := ["Int"; "Float"; "DateTime"].
Definition knownTypes : list string :=
  textTypes ++ orderedTypes ++ ["Boolean"].

(** What an operator of a scalar filter accepts besides the base type. *)
Definition nullArrayOf (isRequired : bool) : list string :=
  if isRequired then [] else ["null"].

(** A model in which a scalar field and a list relation have one type name,
    and so one filter name. *)
Definition clashModel : Model.t :=
  {| Model.name := "Blog";
     Model.fields :=
       [ Field.mk "label" "Post" scalar false true;
         Field.mk "posts" "Post" relation true false ] |}.

Definition clashDocument : Document.t unit :=
  documentOf [clashModel] [] [plainInputType "BlogWhereInput" []].

(** ** Facts about the string methods *)

Section StringFacts.

Lemma length_app (p s : string) :
  String.length (p ++ s) = String.length p + String.length s.
Proof. induction p as [|c p IH]; simpl; [reflexivity | now rewrite IH]. Qed.

Lemma substring_zero_zero (s : string) : substring 0 0 s = "".
Proof. now destruct s. Qed.

Lemma substring_whole (s : string) : substring 0 (String.length s) s = s.
Proof. induction s as [|c s IH]; simpl; [reflexivity | now rewrite IH]. Qed.

Lemma substring_skip_app (p s : string) (n : nat) :
  substring (String.length p) n (p ++ s) = substring 0 n s.
Proof. induction p as [|c p IH]; simpl; [reflexivity | exact IH]. Qed.

Lemma substring_take_app (p s : string) :
  substring 0 (String.length p) (p ++ s) = p.
Proof.
  induction p as [|c p IH]; simpl.
  - apply substring_zero_zero.
  - now rewrite IH.
Qed.

(** A string is what comes before a position followed by what comes after. *)
Lemma substring_split (n : nat) : forall s : string,
  n <= String.length s ->
  s = (substring 0 n s ++ substring n (String.length s - n) s)%string.
Proof.
  induction n as [|n IH]; intros s Hn.
  - rewrite substring_zero_zero, Nat.sub_0_r, substring_whole. reflexivity.
  - destruct s as [|c s]; simpl in *; [lia|].
    f_equal. apply IH. lia.
Qed.

Lemma endsWith_app (p suffix : string) :
  Js.endsWith (p ++ suffix) suffix = true.
Proof.
  unfold Js.endsWith. rewrite length_app.
  replace (String.length p + String.length suffix - String.length suffix)
    with (String.length p) by lia.
  rewrite substring_skip_app, substring_whole, String.eqb_refl.
  rewrite andb_true_r. apply Nat.leb_le. lia.
Qed.

(** [endsWith] holds exactly of the strings made of a prefix and the
    suffix. *)
Lemma endsWith_iff (s suffix : string) :
  Js.endsWith s suffix = true <-> exists p, s = (p ++ suffix)%string.
Proof.
  split.
  - unfold Js.endsWith. intros H. apply andb_true_iff in H as [Hlen Heq].
    apply Nat.leb_le in Hlen. apply String.eqb_eq in Heq.
    exists (substring 0 (String.length s - String.length suffix) s).
    pose proof
      (substring_split (String.length s - String.length suffix) s) as E.
    replace (String.length s - (String.length s - String.length suffix))
      with (String.length suffix) in E by lia.
    rewrite Heq in E. apply E. lia.
  - intros [p ->]. apply endsWith_app.
Qed.

Lemma lastIndexOfFrom_hit (s sub : string) (k : nat) :
  substring k (String.length sub) s = sub ->
  Js.lastIndexOfFrom s sub k = Z.of_nat k.
Proof.
  intros H. destruct k; simpl; rewrite H, String.eqb_refl; reflexivity.
Qed.

(** On a string that ends in [suffix], the last occurrence of [suffix] is
    the final one. *)
Lemma lastIndexOf_app (p suffix : string) :
  Js.lastIndexOf (p ++ suffix) suffix = Z.of_nat (String.length p).
Proof.
  unfold Js.lastIndexOf. rewrite length_app.
  replace (String.length suffix <=? String.length p + String.length suffix)%nat
    with true by (symmetry; apply Nat.leb_le; lia).
  replace (String.length p + String.length suffix - String.length suffix)
    with (String.length p) by lia.
  apply lastIndexOfFrom_hit.
  now rewrite substring_skip_app, substring_whole.
Qed.

Lemma slice_take_app (p s : string) :
  Js.slice (p ++ s) 0 (Z.of_nat (String.length p)) = p.
Proof.
  unfold Js.slice, Js.clamp. rewrite length_app.
  replace (0 <? 0)%Z with false by reflexivity.
  replace (Z.of_nat (String.length p) <? 0)%Z with false
    by (symmetry; apply Z.ltb_ge; lia).
  rewrite Z.min_l by lia. rewrite Z.min_l by lia.
  rewrite Z.sub_0_r, Nat2Z.id. simpl Z.to_nat.
  apply substring_take_app.
Qed.

(** Cutting a string at the last occurrence of a suffix it ends in removes
    that suffix. *)
Lemma strip_suffix (p suffix : string) :
  Js.slice (p ++ suffix) 0 (Js.lastIndexOf (p ++ suffix) suffix) = p.
Proof. rewrite lastIndexOf_app. apply slice_take_app. Qed.

End StringFacts.

(** ** Facts about the dictionary of filter types *)

Section DictionaryFacts.

Lemma dictGet_None (key : string) (d : FilterTypes) :
  dictGet key d = None <-> ~ In key (map fst d).
Proof.
  induction d as [|[k v] d IH]; simpl.
  - tauto.
  - destruct (String.eqb_spec k key) as [->|Hne].
    + split; [discriminate | intros H; exfalso; apply H; now left].
    + rewrite IH. tauto.
Qed.

(** Writing a key that is not there yet adds it at the end. *)
Lemma dictSet_fresh (key : string) (v : InputType.t) (d : FilterTypes) :
  dictGet key d = None -> dictSet key v d = d ++ [(key, v)].
Proof.
  induction d as [|[k w] d IH]; simpl; intros H.
  - reflexivity.
  - destruct (k =? key); [discriminate | now rewrite IH].
Qed.

Lemma wellKeyed_nil : wellKeyed [].
Proof. split; constructor. Qed.

Lemma wellKeyed_snoc (d : FilterTypes) (key : string) (v : InputType.t) :
  wellKeyed d -> dictGet key d = None -> InputType.name v = key ->
  wellKeyed (d ++ [(key, v)]).
Proof.
  intros [Hnd Hall] Hget Hname. split.
  - rewrite map_app. simpl.
    apply dictGet_None in Hget.
    clear Hall. induction d as [|[k w] d IH]; simpl in *.
    + constructor; [tauto | constructor].
    + inversion Hnd as [|? ? Hk Hd]; subst. constructor.
      * rewrite in_app_iff. simpl. intros [H|[H|[]]]; [tauto|].
        apply Hget. now left.
      * apply IH; [assumption | tauto].
  - apply Forall_app. split; [assumption|]. constructor; [assumption|constructor].
Qed.

(** The names of the values of a well-keyed dictionary are its keys. *)
Lemma wellKeyed_names (d : FilterTypes) :
  wellKeyed d -> map InputType.name (dictValues d) = map fst d.
Proof.
  intros [_ Hall]. unfold dictValues. rewrite map_map.
  induction Hall as [|kv d Hkv _ IH]; simpl; [reflexivity|].
  now rewrite Hkv, IH.
Qed.

End DictionaryFacts.

(** ** Facts about the where-pass *)

Section WhereFacts.

(** The arg of a field is the same whatever the dictionary holds. *)
Lemma fieldFilterArg_fst (f : Field.t) (d : FilterTypes) :
  fst (fieldFilterArg f d) = fieldArg f.
Proof. reflexivity. Qed.

(** [fieldFilterArg] leaves the dictionary as it is or adds one entry at its
    end; either way the dictionary stays well keyed and holds the key of the
    field afterwards. *)
Lemma fieldFilterArg_snd (f : Field.t) (d : FilterTypes) :
  wellKeyed d ->
  exists ext,
    snd (fieldFilterArg f d) = d ++ ext /\
    wellKeyed (d ++ ext) /\
    In (fieldFilterName f) (map fst (d ++ ext)).
Proof.
  intros Hwk. unfold fieldFilterArg, fieldFilterName, requiredEffective.
  simpl snd.
  set (key := getFilterName (Field.type f)
                (Field.isRequired f || isRelation (Field.kind f))).
  destruct (dictGet key d) as [v|] eqn:Hget.
  - exists []. rewrite app_nil_r.
    split; [reflexivity | split; [assumption|]].
    destruct (in_dec string_dec key (map fst d)) as [Hin|Hout];
      [assumption|].
    apply dictGet_None in Hout. congruence.
  - eexists [_]. rewrite dictSet_fresh by assumption.
    split; [reflexivity|]. split.
    + apply wellKeyed_snoc; [assumption | assumption |].
      unfold makeFilterType. simpl. now rewrite negb_involutive.
    + rewrite map_app, in_app_iff. right. now left.
Qed.

Lemma mapFields_fst (fields : list Field.t) : forall d : FilterTypes,
  fst (mapFields fields d) = map fieldArg fields.
Proof.
  induction fields as [|f fields IH]; intros d; cbn [mapFields map];
    [reflexivity|].
  rewrite <- (fieldFilterArg_fst f d).
  destruct (fieldFilterArg f d) as [a d1].
  specialize (IH d1). destruct (mapFields fields d1) as [others d2].
  cbn [fst] in *. now f_equal.
Qed.

Lemma mapFields_snd (fields : list Field.t) : forall d : FilterTypes,
  wellKeyed d ->
  exists ext,
    snd (mapFields fields d) = d ++ ext /\
    wellKeyed (d ++ ext) /\
    forall f, In f fields -> In (fieldFilterName f) (map fst (d ++ ext)).
Proof.
  induction fields as [|f fields IH]; intros d Hwk; cbn [mapFields].
  - exists []. rewrite app_nil_r.
    split; [reflexivity | split; [assumption | contradiction]].
  - destruct (fieldFilterArg_snd f d Hwk) as (e1 & E1 & Hwk1 & Hin1).
    destruct (fieldFilterArg f d) as [a d1]. cbn [snd] in E1. subst d1.
    destruct (IH (d ++ e1) Hwk1) as (e2 & E2 & Hwk2 & Hin2).
    destruct (mapFields fields (d ++ e1)) as [others d2]. cbn [snd] in *.
    subst d2. exists (e1 ++ e2). rewrite app_assoc.
    split; [reflexivity | split; [assumption|]].
    intros g [<-|Hg]; [|now apply Hin2].
    rewrite map_app, in_app_iff. now left.
Qed.

(** One turn of the loop: the rewritten type goes to the end of the array,
    and the fields of its model go through the dictionary. *)
Lemma whereStep_eq (models : list Model.t) (acc : list InputType.t)
  (d : FilterTypes) (type : InputType.t) :
  whereStep models (acc, d) type =
  (acc ++ [rewrittenType models type],
   snd (mapFields (filteredFields models type) d)).
Proof.
  unfold whereStep, rewrittenType, filteredFields, modelOf.
  destruct (Js.endsWith (InputType.name type) "WhereInput"); simpl;
    [|reflexivity].
  destruct (findModel models _) as [model|]; [|reflexivity].
  pose proof (mapFields_fst (filter hasFilterArg (Model.fields model)) d) as E.
  destruct (mapFields (filter hasFilterArg (Model.fields model)) d)
    as [fieldArgs d'].
  simpl in *. now subst fieldArgs.
Qed.

Lemma whereFold_fst (models : list Model.t) (types : list InputType.t) :
  forall (acc : list InputType.t) (d : FilterTypes),
  fst (fold_left (whereStep models) types (acc, d)) =
  acc ++ map (rewrittenType models) types.
Proof.
  induction types as [|type types IH]; intros acc d; cbn [fold_left map].
  - cbn [fst]. now rewrite app_nil_r.
  - rewrite whereStep_eq, IH, <- app_assoc. reflexivity.
Qed.

Lemma whereFold_snd (models : list Model.t) (types : list InputType.t) :
  forall (acc : list InputType.t) (d : FilterTypes),
  wellKeyed d ->
  exists ext,
    snd (fold_left (whereStep models) types (acc, d)) = d ++ ext /\
    wellKeyed (d ++ ext) /\
    forall type f,
      In type types -> In f (filteredFields models type) ->
      In (fieldFilterName f) (map fst (d ++ ext)).
Proof.
  induction types as [|type types IH]; intros acc d Hwk; cbn [fold_left].
  - exists []. rewrite app_nil_r.
    split; [reflexivity | split; [assumption|]].
    intros ? ? [].
  - rewrite whereStep_eq.
    destruct (mapFields_snd (filteredFields models type) d Hwk)
      as (e1 & E1 & Hwk1 & Hin1).
    rewrite E1.
    destruct (IH (acc ++ [rewrittenType models type]) (d ++ e1) Hwk1)
      as (e2 & E2 & Hwk2 & Hin2).
    exists (e1 ++ e2). rewrite app_assoc.
    split; [assumption | split; [assumption|]].
    intros ty f [<-|Hty] Hf; [|now apply (Hin2 ty)].
    rewrite map_app, in_app_iff. left. now apply Hin1.
Qed.

End WhereFacts.

(** ** Facts about lists of named things *)

Section NameFacts.

Context {T : Type} (name : T -> string).

Lemma NoDup_map_filter (p : T -> bool) (l : list T) :
  NoDup (map name l) -> NoDup (map name (filter p l)).
Proof.
  induction l as [|x l IH]; simpl; intros H; [constructor|].
  inversion H as [|? ? Hx Hl]; subst.
  destruct (p x); simpl; [constructor|]; auto.
  intros Hin. apply Hx. apply in_map_iff in Hin as (y & Hy & Hin).
  apply filter_In in Hin as [Hin _]. rewrite <- Hy. now apply in_map.
Qed.

(** In a list without two equal names, a name picks out one element. *)
Lemma NoDup_map_unique (l : list T) (x y : T) :
  NoDup (map name l) -> In x l -> In y l -> name x = name y -> x = y.
Proof.
  induction l as [|z l IH]; simpl; intros H Hx Hy E; [contradiction|].
  inversion H as [|? ? Hz Hl]; subst.
  destruct Hx as [<-|Hx], Hy as [<-|Hy]; auto.
  - exfalso. apply Hz. rewrite E. now apply in_map.
  - exfalso. apply Hz. rewrite <- E. now apply in_map.
Qed.

Lemma count_absent (l : list T) (n : string) :
  ~ In n (map name l) -> List.length (filter (fun x => name x =? n) l) = 0.
Proof.
  induction l as [|z l IH]; simpl; intros H; [reflexivity|].
  destruct (String.eqb_spec (name z) n) as [E|E]; [tauto|].
  apply IH. tauto.
Qed.

Lemma NoDup_map_count (l : list T) (n : string) :
  NoDup (map name l) -> In n (map name l) ->
  List.length (filter (fun x => name x =? n) l) = 1.
Proof.
  induction l as [|z l IH]; simpl; intros H Hin; [contradiction|].
  inversion H as [|? ? Hz Hl]; subst.
  destruct (String.eqb_spec (name z) n) as [E|E]; simpl.
  - subst n. now rewrite count_absent.
  - apply IH; tauto.
Qed.

(** [uniqByFrom] keeps no element whose key was seen and no two elements with
    one key. *)
Lemma uniqByFrom_NoDup (arr : list T) : forall seen : list string,
  NoDup (map name (uniqByFrom seen arr name)) /\
  forall x, In x (uniqByFrom seen arr name) -> ~ In (name x) seen.
Proof.
  induction arr as [|x arr IH]; intros seen; simpl.
  - split; [constructor | contradiction].
  - unfold Js.arrayIncludes.
    destruct (existsb (String.eqb (name x)) seen) eqn:E.
    + apply IH.
    + destruct (IH (name x :: seen)) as [Hnd Hseen]. split.
      * simpl. constructor; [|assumption].
        intros Hin. apply in_map_iff in Hin as (y & Hy & Hin).
        apply (Hseen y Hin). left. now symmetry.
      * intros y [<-|Hy].
        -- intros Hin.
           assert (existsb (String.eqb (name x)) seen = true) as E'
             by (apply existsb_exists; exists (name x); split;
                 [assumption | apply String.eqb_refl]).
           congruence.
        -- intros Hin. apply (Hseen y Hy). now right.
Qed.

Lemma uniqBy_NoDup (arr : list T) : NoDup (map name (uniqBy arr name)).
Proof. apply uniqByFrom_NoDup. Qed.

End NameFacts.

(** ** Facts about the order-pass *)

Section OrderFacts.

(** The loop sends each enum to one of the two arrays. *)
Lemma orderFold_eq (enums : list Enum.t) :
  forall (inputTypes : list InputType.t) (acc : list Enum.t),
  fold_left orderStep enums (inputTypes, acc) =
  (inputTypes ++ map orderInputType (filter isOrderByInput enums),
   acc ++ filter (fun type => negb (isOrderByInput type)) enums).
Proof.
  induction enums as [|type enums IH]; intros inputTypes acc;
    cbn [fold_left filter].
  - cbn [map]. now rewrite !app_nil_r.
  - change (orderStep (inputTypes, acc) type)
      with (if negb (isOrderByInput type)
            then (inputTypes, acc ++ [type])
            else (inputTypes ++ [orderInputType type], acc)).
    destruct (isOrderByInput type); cbn [negb map];
      rewrite IH, <- app_assoc; reflexivity.
Qed.

Lemma substring_skip_more (p s : string) (k n : nat) :
  substring (String.length p + k) n (p ++ s) = substring k n s.
Proof. induction p as [|c p IH]; simpl; [reflexivity | exact IH]. Qed.

Lemma orderArgNames_from (values : list string) : forall acc : list string,
  fold_left
    (fun acc curr =>
       if Js.endsWith curr "ASC" then
         acc ++ [Js.slice curr 0 (Js.lastIndexOf curr "_ASC")]
       else acc)
    values acc =
  acc ++ orderArgNames values.
Proof.
  unfold orderArgNames.
  induction values as [|v values IH]; intros acc; cbn [fold_left].
  - now rewrite app_nil_r.
  - rewrite IH. rewrite (IH (if Js.endsWith v "ASC" then _ else _)).
    destruct (Js.endsWith v "ASC"); [|reflexivity].
    now rewrite app_assoc.
Qed.

End OrderFacts.

(** ** The passes on a whole document *)

Section DocumentFacts.

Context {V : Type}.
Implicit Type document : Document.t V.

Lemma where_inputTypes document :
  Schema.inputTypes (Document.schema (transformWhereInputTypes document)) =
  map (rewrittenType (Datamodel.models (Document.datamodel document)))
    (Schema.inputTypes (Document.schema document)) ++
  dictValues
    (snd (whereLoop (Datamodel.models (Document.datamodel document))
            (Schema.inputTypes (Document.schema document)))).
Proof.
  unfold transformWhereInputTypes.
  destruct (whereLoop _ _) as [inputTypes filterTypes] eqn:E.
  cbn [Document.schema Schema.inputTypes snd]. f_equal.
  change inputTypes with (fst (inputTypes, filterTypes)).
  rewrite <- E. unfold whereLoop. now rewrite whereFold_fst.
Qed.

Lemma where_enums document :
  Schema.enums (Document.schema (transformWhereInputTypes document)) =
  Schema.enums (Document.schema document).
Proof.
  unfold transformWhereInputTypes. now destruct (whereLoop _ _).
Qed.

Lemma order_schema document :
  Schema.inputTypes (Document.schema (transformOrderInputTypes document)) =
    Schema.inputTypes (Document.schema document) ++
    map orderInputType
      (filter isOrderByInput (Schema.enums (Document.schema document))) /\
  Schema.enums (Document.schema (transformOrderInputTypes document)) =
    OrderByArg ::
    filter (fun type => negb (isOrderByInput type))
      (Schema.enums (Document.schema document)).
Proof.
  unfold transformOrderInputTypes. rewrite orderFold_eq. now split.
Qed.

(** The enums of the final document: the order-pass decides them alone. *)
Lemma final_enums document :
  Schema.enums (Document.schema (transformDmmf document)) =
  OrderByArg ::
  filter (fun type => negb (isOrderByInput type))
    (Schema.enums (Document.schema document)).
Proof.
  unfold transformDmmf. cbn [Document.schema Schema.enums].
  destruct (order_schema (transformWhereInputTypes document)) as [_ ->].
  now rewrite where_enums.
Qed.

(** A where-type named after an entity is resolved against that entity. *)
Lemma modelOf_entity (models : list Model.t) (type : InputType.t)
  (entity : string) :
  InputType.name type = (entity ++ "WhereInput")%string ->
  modelOf models type = findModel models entity.
Proof.
  intros E. unfold modelOf. rewrite E, endsWith_app, strip_suffix.
  reflexivity.
Qed.

Lemma findModel_none (models : list Model.t) (entity : string) :
  (forall m, In m models -> Model.name m <> entity) ->
  findModel models entity = None.
Proof.
  intros H. unfold findModel.
  destruct (find _ models) as [m|] eqn:E; [|reflexivity].
  apply find_some in E as [Hin Hname]. apply String.eqb_eq in Hname.
  now apply H in Hin.
Qed.

(** The where-pass keeps the places of the input types. *)
Lemma where_nth document (i : nat) (type : InputType.t) :
  nth_error (Schema.inputTypes (Document.schema document)) i = Some type ->
  nth_error
    (Schema.inputTypes (Document.schema (transformWhereInputTypes document)))
    i =
  Some (rewrittenType (Datamodel.models (Document.datamodel document)) type).
Proof.
  intros H. rewrite where_inputTypes.
  rewrite nth_error_app1.
  - now rewrite nth_error_map, H.
  - rewrite length_map. apply nth_error_Some. congruence.
Qed.

(** The filter types the where-pass appends: no two of one name, and one for
    each field that got an arg. *)
Lemma where_filters document :
  let filters :=
    dictValues
      (snd (whereLoop (Datamodel.models (Document.datamodel document))
              (Schema.inputTypes (Document.schema document)))) in
  NoDup (map InputType.name filters) /\
  forall f, Synthesized document f ->
            In (fieldFilterName f) (map InputType.name filters).
Proof.
  cbn zeta. unfold whereLoop.
  destruct (whereFold_snd (Datamodel.models (Document.datamodel document))
              (Schema.inputTypes (Document.schema document)) [] []
              wellKeyed_nil) as (ext & E & Hwk & Hin).
  unfold FilterTypes in *.
  rewrite E. cbn [app] in *. rewrite (wellKeyed_names ext Hwk). split.
  - apply Hwk.
  - intros f (type & Htype & Hf). now apply (Hin type).
Qed.

End DocumentFacts.

(** ** The properties of the transformation *)

(** C1.  The scenario of the entity [User]: with the fields [id: ID!],
    [name: String], [posts] (a list relation to [Post]) and [profile] (a
    single relation to [Profile]), and the where-type [UserWhereInput] with
    the args [AND], [OR], [NOT] and [profile], the where-pass yields
    [UserWhereInput] with the args [id], [name], [posts], [AND], [OR],
    [NOT], [profile] in this order, where [id] has the type
    [[ID, IDFilter]], [name] the type [[String, NullableStringFilter, null]]
    and [posts] the type [[PostFilter]]; the four original args are retained
    and marked as relation filters; and [PostFilter] is the relation filter
    with the args [every], [some] and [none], each of type
    [PostWhereInput]. *)
Theorem user_where_input_scenario {V : Type} (document : Document.t V)
  (postsRequired profileRequired : bool) (others : list Model.t)
  (type : InputType.t) (aAND aOR aNOT aProfile : SchemaArg.t) :
  Datamodel.models (Document.datamodel document) =
    userModel postsRequired profileRequired :: others ->
  Schema.inputTypes (Document.schema document) = [type] ->
  InputType.name type = "UserWhereInput" ->
  InputType.args type = [aAND; aOR; aNOT; aProfile] ->
  SchemaArg.name aAND = "AND" ->
  SchemaArg.name aOR = "OR" ->
  SchemaArg.name aNOT = "NOT" ->
  SchemaArg.name aProfile = "profile" ->
  Schema.inputTypes (Document.schema (transformWhereInputTypes document)) =
    [ {| InputType.name := "UserWhereInput";
         InputType.args :=
           [ SchemaArg.mk "id" ["ID"; "IDFilter"]
               false false false false (Some false);
             SchemaArg.mk "name" ["String"; "NullableStringFilter"; "null"]
               false false false false (Some false);
             SchemaArg.mk "posts" ["PostFilter"]
               false false false false (Some false);
             SchemaArg.markRelationFilter aAND;
             SchemaArg.markRelationFilter aOR;
             SchemaArg.markRelationFilter aNOT;
             SchemaArg.markRelationFilter aProfile ];
         InputType.atLeastOne := Some true;
         InputType.atMostOne := None;
         InputType.isWhereType := Some true;
         InputType.isOrderType := None |};
      makeFilterType "ID" true true;
      makeFilterType "String" false true;
      {| InputType.name := "PostFilter";
         InputType.args :=
           [ SchemaArg.mk "every" ["PostWhereInput"]
               false false false true None;
             SchemaArg.mk "some" ["PostWhereInput"]
               false false false true None;
             SchemaArg.mk "none" ["PostWhereInput"]
               false false false true None ];
         InputType.atLeastOne := Some true;
         InputType.atMostOne := None;
         InputType.isWhereType := None;
         InputType.isOrderType := None |} ] /\
  InputType.name (makeFilterType "ID" true true) = "IDFilter" /\
  InputType.name (makeFilterType "String" false true) = "NullableStringFilter" /\
  SchemaArg.isRelationFilter (SchemaArg.markRelationFilter aProfile) = Some true /\
  SchemaArg.name (SchemaArg.markRelationFilter aProfile) = "profile".
Proof.
  intros Hmodels Htypes Hname Hargs HAND HOR HNOT Hprofile.
  split; [|repeat split; assumption].
  rewrite where_inputTypes, Hmodels, Htypes.
  destruct type as [n args lo mo wt ot]. cbn in Hname, Hargs. subst n args.
  destruct aAND as [n1 ? ? ? ? ? ?], aOR as [n2 ? ? ? ? ? ?],
    aNOT as [n3 ? ? ? ? ? ?], aProfile as [n4 ? ? ? ? ? ?].
  cbn in HAND, HOR, HNOT, Hprofile. subst n1 n2 n3 n4.
  destruct postsRequired; reflexivity.
Qed.

Lemma user_where_input_scenario_witness :
  map InputType.name
    (Schema.inputTypes
       (Document.schema (transformWhereInputTypes userDocument))) =
  ["UserWhereInput"; "IDFilter"; "NullableStringFilter"; "PostFilter"].
Proof.
  pose proof
    (user_where_input_scenario userDocument false false []
       (plainInputType "UserWhereInput"
          [plainArg "AND" "UserWhereInput"; plainArg "OR" "UserWhereInput";
           plainArg "NOT" "UserWhereInput";
           plainArg "profile" "ProfileWhereInput"])
       (plainArg "AND" "UserWhereInput") (plainArg "OR" "UserWhereInput")
       (plainArg "NOT" "UserWhereInput")
       (plainArg "profile" "ProfileWhereInput")
       eq_refl eq_refl eq_refl eq_refl eq_refl eq_refl eq_refl eq_refl)
    as [E _].
  rewrite E. reflexivity.
Defined.

(** The flags of an arg that are all false on the args built for fields. *)
Lemma fieldFilterArg_flags (f : Field.t) (d : FilterTypes) :
  let a := fst (fieldFilterArg f d) in
  SchemaArg.name a = Field.name f /\
  SchemaArg.isRequired a = false /\
  SchemaArg.isList a = false /\
  SchemaArg.isScalar a = false /\
  SchemaArg.isEnum a = false /\
  SchemaArg.isRelationFilter a = Some false.
Proof. cbn. repeat split. Qed.

(** The enum mode of [getScalarFilterArgs] ([isEnum = true]), which no call
    in the source selects: it would yield, for every base type, the base
    operators [equals] and [not] followed by the inclusion operators [in]
    and [notIn]; the two inclusion operators are list-valued and the two
    base operators are not; none of the ordering operators [lt], [lte],
    [gt], [gte] is among them. *)
Theorem enum_mode_filter_args (type : string) (isRequired : bool) :
  let args := getScalarFilterArgs type isRequired true in
  map SchemaArg.name args = ["equals"; "not"; "in"; "notIn"] /\
  map SchemaArg.isList args = [false; false; true; true] /\
  (forall a, In a args ->
     ~ In (SchemaArg.name a) ["lt"; "lte"; "gt"; "gte"]).
Proof.
  cbn. split; [reflexivity | split; [reflexivity|]].
  intros a [<-|[<-|[<-|[<-|[]]]]]; cbn;
    intros [H|[H|[H|[H|[]]]]]; discriminate.
Qed.

(** C2 at an enum field.  The field [role] of [accountModel] has the enum
    [Role] as its type; the filter type the where-pass builds for it,
    [RoleFilter], has no args at all, so none of [equals], [not], [in],
    [notIn] and the ordering operators: [makeFilterType] calls
    [getScalarFilterArgs] without [isEnum], the enum branch is not taken,
    and [Role] is none of the names the [switch] knows. *)
Lemma enum_filter_lacks_operators :
  Schema.inputTypes
    (Document.schema (transformWhereInputTypes accountDocument)) =
    [ {| InputType.name := "AccountWhereInput";
         InputType.args :=
           [ SchemaArg.mk "role" ["Role"; "RoleFilter"]
               false false false false (Some false) ];
         InputType.atLeastOne := Some true;
         InputType.atMostOne := None;
         InputType.isWhereType := Some true;
         InputType.isOrderType := None |};
      {| InputType.name := "RoleFilter";
         InputType.args := [];
         InputType.atLeastOne := Some true;
         InputType.atMostOne := None;
         InputType.isWhereType := None;
         InputType.isOrderType := None |} ] /\
  ~ In "in"
      (map SchemaArg.name (InputType.args (makeFilterType "Role" true true))).
Proof. split; [reflexivity | intros []]. Qed.

(** C3 at a value that ends in [ASC] without the underscore.  The enum
    [UserOrderByInput] with the values [id_ASC], [id_DESC] and [ASC] becomes
    an input type with two args, [id] and [AS]: the value [ASC] passes the
    test [endsWith('ASC')], [lastIndexOf('_ASC')] is [-1] on it, and
    [slice(0, -1)] drops its last character. *)
Theorem order_arg_from_loose_value :
  Schema.inputTypes
    (Document.schema (transformOrderInputTypes looseOrderDocument)) =
    [ {| InputType.name := "UserOrderByInput";
         InputType.args := [orderArg "id"; orderArg "AS"];
         InputType.atLeastOne := Some true;
         InputType.atMostOne := Some true;
         InputType.isWhereType := None;
         InputType.isOrderType := Some true |} ] /\
  Js.endsWith "ASC" "_ASC" = false /\
  Js.lastIndexOf "ASC" "_ASC" = (-1)%Z.
Proof. repeat split. Qed.

Lemma append_assoc (a b c : string) :
  ((a ++ b) ++ c = a ++ (b ++ c))%string.
Proof. induction a as [|x a IH]; simpl; [reflexivity | now rewrite IH]. Qed.

(** On the values the introspection step produces for an order-by enum, a
    pair [f_ASC], [f_DESC] for each orderable field [f], the names recovered
    are those of the fields. *)
Lemma orderArgNames_of_fields (fieldNames : list string) :
  orderArgNames
    (flat_map (fun f => [f ++ "_ASC"; f ++ "_DESC"]%string) fieldNames) =
  fieldNames.
Proof.
  induction fieldNames as [|f fieldNames IH]; [reflexivity|].
  unfold orderArgNames in *. cbn [flat_map app fold_left].
  assert (Js.endsWith (f ++ "_ASC") "ASC" = true) as ->.
  { change "_ASC" with ("_" ++ "ASC")%string.
    rewrite <- append_assoc. apply endsWith_app. }
  assert (Js.endsWith (f ++ "_DESC") "ASC" = false) as ->.
  { unfold Js.endsWith. rewrite length_app. cbn [String.length].
    replace (String.length f + 5 - 3) with (String.length f + 2) by lia.
    rewrite substring_skip_more. cbn. apply andb_false_r. }
  rewrite strip_suffix. cbn [app].
  rewrite orderArgNames_from. unfold orderArgNames. now rewrite IH.
Qed.

(** Hence the input type that takes the place of such an enum has one arg for
    each orderable field, typed [[OrderByArg]], and the three flags set. *)
Lemma orderInputType_of_fields (name : string) (fieldNames : list string) :
  orderInputType
    {| Enum.name := name;
       Enum.values :=
         flat_map (fun f => [f ++ "_ASC"; f ++ "_DESC"]%string) fieldNames |} =
  {| InputType.name := name;
     InputType.args := map orderArg fieldNames;
     InputType.atLeastOne := Some true;
     InputType.atMostOne := Some true;
     InputType.isWhereType := None;
     InputType.isOrderType := Some true |}.
Proof.
  unfold orderInputType. cbn [Enum.name Enum.values].
  now rewrite orderArgNames_of_fields.
Qed.

(** C5.  In the final document no two input types have one name and no two
    output types have one name. *)
Theorem final_type_names_unique {V : Type} (document : Document.t V) :
  NoDup
    (map InputType.name
       (Schema.inputTypes (Document.schema (transformDmmf document)))) /\
  NoDup
    (map OutputType.name
       (Schema.outputTypes (Document.schema (transformDmmf document)))).
Proof.
  unfold transformDmmf, filterInputTypes, filterOutputTypes.
  cbn [Document.schema Schema.inputTypes Schema.outputTypes].
  split; apply NoDup_map_filter, uniqBy_NoDup.
Qed.

(** The finisher at work: of two types with one name the first stays, and the
    change-event types go. *)
Example finisher_on_eventDocument :
  Schema.inputTypes (Document.schema (transformDmmf eventDocument)) =
    [plainInputType "UserCreateInput" []] /\
  Schema.outputTypes (Document.schema (transformDmmf eventDocument)) =
    [OutputType.mk unit "User" tt].
Proof. split; reflexivity. Qed.

(** C8.  In the final document no input type and no output type has a name
    that contains [Subscription], no input type is named [MutationType], and
    no output type has a name that ends in [PreviousValues]. *)
Theorem no_event_types_in_final_document {V : Type} (document : Document.t V) :
  (forall o,
     In o (Schema.inputTypes (Document.schema (transformDmmf document))) ->
     Js.includes (InputType.name o) "Subscription" = false /\
     InputType.name o <> "MutationType") /\
  (forall o,
     In o (Schema.outputTypes (Document.schema (transformDmmf document))) ->
     Js.includes (OutputType.name o) "Subscription" = false /\
     Js.endsWith (OutputType.name o) "PreviousValues" = false).
Proof.
  unfold transformDmmf, filterInputTypes, filterOutputTypes.
  cbn [Document.schema Schema.inputTypes Schema.outputTypes].
  split; intros o Hin; apply filter_In in Hin as [_ H];
    apply andb_true_iff in H as [H1 H2];
    apply negb_true_iff in H1, H2; split; try assumption.
  now apply String.eqb_neq.
Qed.

(** C7 fails as stated.  A document that already has an enum named
    [OrderByArg] ends up with two enums of that name: the order-pass puts
    its own in front and passes the other one through. *)
Lemma order_by_arg_enum_twice :
  countEnum "OrderByArg"
    (Schema.enums (Document.schema (transformDmmf orderedDocument))) <> 1.
Proof. cbn. discriminate. Qed.

(** C7, amended.  For every document, the enums of the final document start
    with [OrderByArg], whose values are [asc] and [desc], however many
    order-by enums the input has; and when no enum of the input is named
    [OrderByArg], it is the only enum of that name in the final document. *)
Theorem order_by_arg_enum_once {V : Type} (document : Document.t V) :
  hd_error (Schema.enums (Document.schema (transformDmmf document))) =
    Some {| Enum.name := "OrderByArg"; Enum.values := ["asc"; "desc"] |} /\
  ((forall e, In e (Schema.enums (Document.schema document)) ->
              Enum.name e <> "OrderByArg") ->
   countEnum "OrderByArg"
     (Schema.enums (Document.schema (transformDmmf document))) = 1).
Proof.
  rewrite final_enums. split; [reflexivity|]. intros Hfresh.
  unfold countEnum. cbn [filter OrderByArg Enum.name].
  rewrite String.eqb_refl. cbn [List.length]. f_equal.
  apply count_absent. intros Hin.
  apply in_map_iff in Hin as (e & He & Hin).
  apply filter_In in Hin as [Hin _]. now apply (Hfresh e).
Qed.

Lemma order_by_arg_enum_once_witness :
  hd_error (Schema.enums (Document.schema (transformDmmf roleDocument))) =
    Some {| Enum.name := "OrderByArg"; Enum.values := ["asc"; "desc"] |} /\
  countEnum "OrderByArg"
    (Schema.enums (Document.schema (transformDmmf roleDocument))) = 1.
Proof.
  destruct (order_by_arg_enum_once roleDocument) as [Hhead Honce].
  split; [exact Hhead|].
  apply Honce. intros e [<-|[<-|[]]]; discriminate.
Defined.

(** C6.  A where-type whose name is [entity ++ "WhereInput"] for an [entity]
    that is the name of no model stays in its place in the output of the
    where-pass, unmodified.  (The where-pass is a total function: it has no
    failure to raise.) *)
Theorem unresolved_where_type_passes_through {V : Type}
  (document : Document.t V) (i : nat) (type : InputType.t) (entity : string) :
  nth_error (Schema.inputTypes (Document.schema document)) i = Some type ->
  InputType.name type = (entity ++ "WhereInput")%string ->
  (forall m, In m (Datamodel.models (Document.datamodel document)) ->
             Model.name m <> entity) ->
  nth_error
    (Schema.inputTypes (Document.schema (transformWhereInputTypes document)))
    i = Some type.
Proof.
  intros Hi Hname Hnone. rewrite (where_nth document i type Hi).
  unfold rewrittenType.
  now rewrite (modelOf_entity _ type entity Hname), findModel_none.
Qed.

Lemma unresolved_where_type_passes_through_witness :
  nth_error
    (Schema.inputTypes
       (Document.schema (transformWhereInputTypes personDocument)))
    1 =
  Some (plainInputType "GhostWhereInput" [plainArg "AND" "GhostWhereInput"]).
Proof.
  apply (unresolved_where_type_passes_through personDocument 1 _ "Ghost").
  - reflexivity.
  - reflexivity.
  - intros m [<-|[]]. discriminate.
Defined.

(** C9.  For a where-type named [entity ++ "WhereInput"] whose entity
    resolves to a model, the where-pass puts in its place a type whose args
    are the args built for the fields selected by [hasFilterArg], one for
    each in the order of the fields, followed by the original args the white
    list retains.  The fields selected are the relations that are lists and
    the scalar and enum fields that are not lists; so a scalar list gets no
    arg, and neither does a single relation, whose name is on the white
    list. *)
Theorem where_type_field_args {V : Type} (document : Document.t V) (i : nat)
  (type : InputType.t) (entity : string) (model : Model.t) :
  nth_error (Schema.inputTypes (Document.schema document)) i = Some type ->
  InputType.name type = (entity ++ "WhereInput")%string ->
  findModel (Datamodel.models (Document.datamodel document)) entity =
    Some model ->
  nth_error
    (Schema.inputTypes (Document.schema (transformWhereInputTypes document)))
    i =
    Some {| InputType.name := InputType.name type;
            InputType.args :=
              map fieldArg (filter hasFilterArg (Model.fields model)) ++
              retainedArgs model type;
            InputType.atLeastOne := Some true;
            InputType.atMostOne := None;
            InputType.isWhereType := Some true;
            InputType.isOrderType := None |} /\
  (forall f,
     hasFilterArg f = true <->
     (Field.kind f = relation /\ Field.isList f = true) \/
     ((Field.kind f = scalar \/ Field.kind f = enum) /\
      Field.isList f = false)) /\
  (forall f,
     Field.isList f = true -> Field.kind f <> relation ->
     ~ In f (filter hasFilterArg (Model.fields model))) /\
  (forall f,
     Field.kind f = relation -> Field.isList f = false ->
     ~ In f (filter hasFilterArg (Model.fields model)) /\
     (In f (Model.fields model) -> In (Field.name f) (whiteListOf model))).
Proof.
  intros Hi Hname Hmodel. split; [|split; [|split]].
  - rewrite (where_nth document i type Hi). unfold rewrittenType.
    now rewrite (modelOf_entity _ type entity Hname), Hmodel.
  - intros [n t k l r]. unfold hasFilterArg. cbn.
    destruct k, l; cbn; split; intros H; try reflexivity; try discriminate;
      try (right; split; [tauto | reflexivity]);
      try (left; split; reflexivity);
      destruct H as [[H1 H2]|[[H1|H1] H2]]; discriminate.
  - intros [n t k l r] Hl Hk Hin. cbn in Hl, Hk. subst l.
    apply filter_In in Hin as [_ H]. unfold hasFilterArg in H. cbn in H.
    destruct k; [discriminate | now apply Hk | discriminate].
  - intros [n t k l r] Hk Hl. cbn in Hk, Hl. subst k l. split.
    + intros Hin. apply filter_In in Hin as [_ H]. discriminate.
    + intros Hin. unfold whiteListOf. apply in_or_app. right.
      apply in_map_iff. exists (Field.mk n t relation false r).
      split; [reflexivity|]. apply filter_In. now split.
Qed.

Lemma where_type_field_args_witness :
  option_map (fun t => map SchemaArg.name (InputType.args t))
    (nth_error
       (Schema.inputTypes
          (Document.schema (transformWhereInputTypes personDocument)))
       0) =
  Some ["first"; "last"; "AND"].
Proof.
  destruct
    (where_type_field_args personDocument 0
       (plainInputType "PersonWhereInput" [plainArg "AND" "PersonWhereInput"])
       "Person" personModel eq_refl eq_refl eq_refl) as [E _].
  rewrite E. reflexivity.
Defined.

(** C10.  In the type the where-pass puts in the place of a resolved
    where-type, the args before the retained ones are the args built for the
    fields, one for each selected field and with its name, and each of them
    has [isRequired], [isList], [isScalar] and [isEnum] false and
    [isRelationFilter] false, whatever the field is. *)
Theorem synthesized_arg_flags {V : Type} (document : Document.t V) (i : nat)
  (type : InputType.t) (entity : string) (model : Model.t) :
  nth_error (Schema.inputTypes (Document.schema document)) i = Some type ->
  InputType.name type = (entity ++ "WhereInput")%string ->
  findModel (Datamodel.models (Document.datamodel document)) entity =
    Some model ->
  exists newType synthesized,
    nth_error
      (Schema.inputTypes
         (Document.schema (transformWhereInputTypes document))) i =
      Some newType /\
    InputType.args newType = synthesized ++ retainedArgs model type /\
    map SchemaArg.name synthesized =
      map Field.name (filter hasFilterArg (Model.fields model)) /\
    Forall
      (fun a =>
         SchemaArg.isRequired a = false /\
         SchemaArg.isList a = false /\
         SchemaArg.isScalar a = false /\
         SchemaArg.isEnum a = false /\
         SchemaArg.isRelationFilter a = Some false)
      synthesized.
Proof.
  intros Hi Hname Hmodel.
  eexists. exists (map fieldArg (filter hasFilterArg (Model.fields model))).
  split; [|split; [|split]].
  - rewrite (where_nth document i type Hi). unfold rewrittenType.
    rewrite (modelOf_entity _ type entity Hname), Hmodel. reflexivity.
  - reflexivity.
  - rewrite map_map. apply map_ext. intros f.
    apply (fieldFilterArg_flags f []).
  - apply Forall_map, Forall_forall. intros f _.
    apply (fieldFilterArg_flags f []).
Qed.

Lemma synthesized_arg_flags_witness :
  exists newType synthesized,
    nth_error
      (Schema.inputTypes
         (Document.schema (transformWhereInputTypes userDocument))) 0 =
      Some newType /\
    InputType.args newType =
      synthesized ++
      retainedArgs (userModel false false)
        (plainInputType "UserWhereInput"
           [plainArg "AND" "UserWhereInput"; plainArg "OR" "UserWhereInput";
            plainArg "NOT" "UserWhereInput";
            plainArg "profile" "ProfileWhereInput"]) /\
    map SchemaArg.name synthesized =
      map Field.name
        (filter hasFilterArg (Model.fields (userModel false false))) /\
    Forall
      (fun a =>
         SchemaArg.isRequired a = false /\
         SchemaArg.isList a = false /\
         SchemaArg.isScalar a = false /\
         SchemaArg.isEnum a = false /\
         SchemaArg.isRelationFilter a = Some false)
      synthesized.
Proof.
  apply (synthesized_arg_flags userDocument 0 _ "User" (userModel false false));
    reflexivity.
Defined.

(** C4.  Two fields for which the where-pass builds args and which have one
    base type and one nullability class refer, in the types of their args, to
    one name, [(requiredEffective ? '' : 'Nullable') + type + 'Filter'];
    the where-pass appends the filter types of its dictionary after the
    rewritten input types, no two of them with one name, and exactly one of
    them has the name the two args refer to. *)
Theorem filter_types_are_shared {V : Type} (document : Document.t V)
  (f1 f2 : Field.t) :
  Synthesized document f1 ->
  Synthesized document f2 ->
  Field.type f1 = Field.type f2 ->
  requiredEffective f1 = requiredEffective f2 ->
  exists filters ft,
    Schema.inputTypes (Document.schema (transformWhereInputTypes document)) =
      map (rewrittenType (Datamodel.models (Document.datamodel document)))
        (Schema.inputTypes (Document.schema document)) ++ filters /\
    NoDup (map InputType.name filters) /\
    In ft filters /\
    InputType.name ft =
      ((if requiredEffective f1 then "" else "Nullable") ++
       Field.type f1 ++ "Filter")%string /\
    In (InputType.name ft) (SchemaArg.type (fieldArg f1)) /\
    In (InputType.name ft) (SchemaArg.type (fieldArg f2)) /\
    countName (InputType.name ft) filters = 1 /\
    (forall ft', In ft' filters -> InputType.name ft' = InputType.name ft ->
                 ft' = ft).
Proof.
  intros H1 H2 Htype Hreq.
  destruct (where_filters document) as [Hnd Hin].
  set (filters := dictValues _) in *.
  destruct (proj1 (in_map_iff _ _ _) (Hin f1 H1)) as (ft & Hft & Hmem).
  exists filters, ft.
  assert (forall f, In (fieldFilterName f) (SchemaArg.type (fieldArg f)))
    as Hrefers.
  { intros f. unfold fieldArg, fieldFilterName, requiredEffective. cbn.
    apply in_or_app. right. now left. }
  split; [apply where_inputTypes|].
  split; [assumption|]. split; [assumption|]. split; [assumption|].
  rewrite Hft. split; [apply Hrefers|]. split.
  - replace (fieldFilterName f1) with (fieldFilterName f2);
      [apply Hrefers|].
    unfold fieldFilterName. now rewrite Htype, Hreq.
  - split.
    + apply NoDup_map_count; [assumption | now apply Hin].
    + intros ft' Hmem' E. apply (NoDup_map_unique InputType.name filters);
        try assumption. now rewrite E.
Qed.

Lemma filter_types_are_shared_witness :
  exists filters ft,
    Schema.inputTypes
      (Document.schema (transformWhereInputTypes personDocument)) =
      map (rewrittenType [personModel])
        (Schema.inputTypes (Document.schema personDocument)) ++ filters /\
    NoDup (map InputType.name filters) /\
    In ft filters /\
    InputType.name ft = "NullableStringFilter" /\
    In (InputType.name ft)
       (SchemaArg.type (fieldArg (Field.mk "first" "String" scalar false false))) /\
    In (InputType.name ft)
       (SchemaArg.type (fieldArg (Field.mk "last" "String" scalar false false))) /\
    countName (InputType.name ft) filters = 1 /\
    (forall ft', In ft' filters -> InputType.name ft' = InputType.name ft ->
                 ft' = ft).
Proof.
  apply (filter_types_are_shared personDocument
           (Field.mk "first" "String" scalar false false)
           (Field.mk "last" "String" scalar false false)).
  - exists (plainInputType "PersonWhereInput"
              [plainArg "AND" "PersonWhereInput"]).
    split; [now left | now left].
  - exists (plainInputType "PersonWhereInput"
              [plainArg "AND" "PersonWhereInput"]).
    split; [now left | right; now left].
  - reflexivity.
  - reflexivity.
Defined.

(** ** More on the dictionary and on the fields that go through it *)

Section RegistrationFacts.

Lemma dictGet_app_l (key : string) (d ext : FilterTypes) (v : InputType.t) :
  dictGet key d = Some v -> dictGet key (d ++ ext) = Some v.
Proof.
  induction d as [|[k w] d IH]; simpl; [discriminate|].
  destruct (k =? key); [trivial | exact IH].
Qed.

Lemma dictGet_snoc (key k : string) (d : FilterTypes) (v : InputType.t) :
  dictGet key d = None ->
  dictGet key (d ++ [(k, v)]) = if k =? key then Some v else None.
Proof.
  induction d as [|[k' w] d IH]; simpl; [reflexivity|].
  destruct (k' =? key); [discriminate | exact IH].
Qed.

Lemma dictGet_In (key : string) (d : FilterTypes) (v : InputType.t) :
  dictGet key d = Some v -> In (key, v) d.
Proof.
  induction d as [|[k w] d IH]; simpl; [discriminate|].
  destruct (String.eqb_spec k key) as [->|_].
  - intros [= ->]. now left.
  - intros H. right. now apply IH.
Qed.

Lemma filterTypeOf_name (f : Field.t) :
  InputType.name (filterTypeOf f) = fieldFilterName f.
Proof.
  unfold filterTypeOf, fieldFilterName, requiredEffective, makeFilterType.
  cbn. now rewrite negb_involutive.
Qed.

(** What [fieldFilterArg] does to the dictionary: nothing when the name of
    the field's filter is a key, and else one more entry at the end. *)
Lemma fieldFilterArg_register (f : Field.t) (d : FilterTypes) :
  snd (fieldFilterArg f d) =
  match dictGet (fieldFilterName f) d with
  | Some _ => d
  | None => d ++ [(fieldFilterName f, filterTypeOf f)]
  end.
Proof.
  unfold fieldFilterArg, fieldFilterName, requiredEffective, filterTypeOf.
  cbn [snd].
  destruct (dictGet _ d) eqn:E; [reflexivity | now apply dictSet_fresh].
Qed.

Lemma mapFields_snd_cons (f : Field.t) (fields : list Field.t)
  (d : FilterTypes) :
  snd (mapFields (f :: fields) d) =
  snd (mapFields fields (snd (fieldFilterArg f d))).
Proof.
  cbn [mapFields]. destruct (fieldFilterArg f d) as [a d1]. cbn [snd].
  now destruct (mapFields fields d1).
Qed.

Lemma mapFields_snd_app (fs gs : list Field.t) : forall d : FilterTypes,
  snd (mapFields (fs ++ gs) d) = snd (mapFields gs (snd (mapFields fs d))).
Proof.
  induction fs as [|f fs IH]; intros d; [reflexivity|].
  cbn [app]. now rewrite !mapFields_snd_cons, IH.
Qed.

(** Every entry of the dictionary was there before or was built for one of
    the fields. *)
Lemma mapFields_origin (fs : list Field.t) :
  forall (d : FilterTypes) (kv : string * InputType.t),
  In kv (snd (mapFields fs d)) ->
  In kv d \/ exists f, In f fs /\ kv = (fieldFilterName f, filterTypeOf f).
Proof.
  induction fs as [|f fs IH]; intros d kv; [now left|].
  rewrite mapFields_snd_cons, fieldFilterArg_register. intros H.
  apply IH in H as [H|(g & Hg & E)].
  - destruct (dictGet (fieldFilterName f) d); [now left|].
    apply in_app_or in H as [H|[<-|[]]]; [now left|].
    right. exists f. split; [now left | reflexivity].
  - right. exists g. split; [now right | assumption].
Qed.

(** An entry of the dictionary is never replaced. *)
Lemma mapFields_keeps (fs : list Field.t) :
  forall (d : FilterTypes) (key : string) (v : InputType.t),
  dictGet key d = Some v -> dictGet key (snd (mapFields fs d)) = Some v.
Proof.
  induction fs as [|f fs IH]; intros d key v H; [assumption|].
  rewrite mapFields_snd_cons, fieldFilterArg_register. apply IH.
  destruct (dictGet (fieldFilterName f) d); [assumption|].
  now apply dictGet_app_l.
Qed.

(** A key that is the filter name of none of the fields is not added. *)
Lemma mapFields_absent (fs : list Field.t) :
  forall (d : FilterTypes) (key : string),
  dictGet key d = None ->
  (forall g, In g fs -> fieldFilterName g <> key) ->
  dictGet key (snd (mapFields fs d)) = None.
Proof.
  induction fs as [|f fs IH]; intros d key H Hfs; [assumption|].
  rewrite mapFields_snd_cons, fieldFilterArg_register. apply IH.
  - destruct (dictGet (fieldFilterName f) d); [assumption|].
    rewrite dictGet_snoc by assumption.
    destruct (String.eqb_spec (fieldFilterName f) key) as [E|_];
      [|reflexivity].
    exfalso. apply (Hfs f); [now left | assumption].
  - intros g Hg. apply Hfs. now right.
Qed.

(** The first of the fields with a filter name decides the filter type kept
    under that name. *)
Lemma mapFields_first (pre post : list Field.t) (f : Field.t) :
  (forall g, In g pre -> fieldFilterName g <> fieldFilterName f) ->
  dictGet (fieldFilterName f) (snd (mapFields (pre ++ f :: post) [])) =
  Some (filterTypeOf f).
Proof.
  intros Hpre. rewrite mapFields_snd_app, mapFields_snd_cons.
  apply mapFields_keeps. rewrite fieldFilterArg_register.
  rewrite (mapFields_absent pre [] (fieldFilterName f) eq_refl Hpre).
  rewrite dictGet_snoc by now apply mapFields_absent.
  now rewrite String.eqb_refl.
Qed.

(** The dictionary at the end of the loop is the one the processed fields
    make, one after the other. *)
Lemma whereFold_snd_eq (models : list Model.t) (types : list InputType.t) :
  forall (acc : list InputType.t) (d : FilterTypes),
  snd (fold_left (whereStep models) types (acc, d)) =
  snd (mapFields (processedFields models types) d).
Proof.
  unfold processedFields.
  induction types as [|type types IH]; intros acc d;
    cbn [fold_left flat_map]; [reflexivity|].
  now rewrite whereStep_eq, IH, mapFields_snd_app.
Qed.

Lemma Synthesized_processed {V : Type} (document : Document.t V)
  (f : Field.t) :
  Synthesized document f <->
  In f (processedFields (Datamodel.models (Document.datamodel document))
          (Schema.inputTypes (Document.schema document))).
Proof.
  unfold Synthesized, processedFields. rewrite in_flat_map. reflexivity.
Qed.

End RegistrationFacts.

(** ** Further properties of the where-pass *)

(** X1.  Every filter type the where-pass appends was built for a field that
    got an arg, and the arg of that field refers to it by name: no filter
    type is appended that nothing refers to. *)
Theorem filter_types_come_from_fields {V : Type} (document : Document.t V) :
  exists filters,
    Schema.inputTypes (Document.schema (transformWhereInputTypes document)) =
      map (rewrittenType (Datamodel.models (Document.datamodel document)))
        (Schema.inputTypes (Document.schema document)) ++ filters /\
    forall ft, In ft filters ->
      exists f,
        Synthesized document f /\
        ft = makeFilterType (Field.type f) (Field.isRequired f)
               (negb (isRelation (Field.kind f))) /\
        In (InputType.name ft) (SchemaArg.type (fieldArg f)).
Proof.
  eexists. split; [apply where_inputTypes|].
  unfold whereLoop. rewrite whereFold_snd_eq. intros ft Hft.
  apply in_map_iff in Hft as ([k v] & <- & Hin).
  apply mapFields_origin in Hin as [[]|(f & Hf & E)].
  injection E as -> ->. exists f.
  split; [now apply Synthesized_processed|]. split; [reflexivity|].
  cbn [snd]. rewrite filterTypeOf_name.
  unfold fieldArg, fieldFilterName, requiredEffective. cbn.
  apply in_or_app. right. now left.
Qed.

(** X2.  When several processed fields have one filter name, the filter type
    appended under that name is the one built for the first of them: a field
    before which no processed field has its filter name gets its own filter
    type appended, and no other filter type with that name is. *)
Theorem first_field_decides_filter_type {V : Type} (document : Document.t V)
  (pre post : list Field.t) (f : Field.t) :
  processedFields (Datamodel.models (Document.datamodel document))
    (Schema.inputTypes (Document.schema document)) = pre ++ f :: post ->
  (forall g, In g pre -> fieldFilterName g <> fieldFilterName f) ->
  exists filters,
    Schema.inputTypes (Document.schema (transformWhereInputTypes document)) =
      map (rewrittenType (Datamodel.models (Document.datamodel document)))
        (Schema.inputTypes (Document.schema document)) ++ filters /\
    In (filterTypeOf f) filters /\
    forall ft, In ft filters -> InputType.name ft = fieldFilterName f ->
               ft = filterTypeOf f.
Proof.
  intros Hfs Hpre. eexists. split; [apply where_inputTypes|].
  destruct (where_filters document) as [Hnd _]. cbn zeta in Hnd.
  set (filters := dictValues _) in *.
  assert (In (filterTypeOf f) filters) as Hin.
  { subst filters. unfold whereLoop. rewrite whereFold_snd_eq, Hfs.
    pose proof (dictGet_In _ _ _ (mapFields_first pre post f Hpre)) as H.
    apply (in_map snd) in H. exact H. }
  split; [assumption|]. intros ft Hft Hname.
  apply (NoDup_map_unique InputType.name filters); try assumption.
  now rewrite filterTypeOf_name.
Qed.

Lemma first_field_decides_filter_type_witness :
  exists filters,
    Schema.inputTypes
      (Document.schema (transformWhereInputTypes clashDocument)) =
      map (rewrittenType [clashModel])
        (Schema.inputTypes (Document.schema clashDocument)) ++ filters /\
    In (filterTypeOf (Field.mk "label" "Post" scalar false true)) filters /\
    forall ft, In ft filters ->
      InputType.name ft =
        fieldFilterName (Field.mk "label" "Post" scalar false true) ->
      ft = filterTypeOf (Field.mk "label" "Post" scalar false true).
Proof.
  apply (first_field_decides_filter_type clashDocument []
           [Field.mk "posts" "Post" relation true false]
           (Field.mk "label" "Post" scalar false true)).
  - reflexivity.
  - intros g [].
Defined.

(** In [clashDocument] the scalar field comes first: the arg of the list
    relation [posts] refers to [PostFilter], and the only filter type of
    that name is the scalar one, which has no args. *)
Example clash_of_filter_names :
  Schema.inputTypes
    (Document.schema (transformWhereInputTypes clashDocument)) =
  [ {| InputType.name := "BlogWhereInput";
       InputType.args :=
         [ SchemaArg.mk "label" ["Post"; "PostFilter"]
             false false false false (Some false);
           SchemaArg.mk "posts" ["PostFilter"]
             false false false false (Some false) ];
       InputType.atLeastOne := Some true;
       InputType.atMostOne := None;
       InputType.isWhereType := Some true;
       InputType.isOrderType := None |};
    {| InputType.name := "PostFilter";
       InputType.args := [];
       InputType.atLeastOne := Some true;
       InputType.atMostOne := None;
       InputType.isWhereType := None;
       InputType.isOrderType := None |} ].
Proof. reflexivity. Qed.

(** ** Properties of the factory of filter types *)

Lemma append_inv_tail (a b s : string) :
  (a ++ s = b ++ s)%string -> a = b.
Proof.
  revert b. induction a as [|c a IH]; intros [|c' b] H; simpl in H.
  - reflexivity.
  - apply (f_equal String.length) in H. simpl in H.
    rewrite length_app in H. lia.
  - apply (f_equal String.length) in H. simpl in H.
    rewrite length_app in H. lia.
  - injection H as -> H. f_equal. now apply IH.
Qed.

(** X3.  The name of a filter type tells base types of one nullability class
    apart, and the required and the nullable filter of one base type have
    different names; but a required base type [t1] and a nullable base type
    [t2] get one name exactly when [t1] is [Nullable] followed by [t2]. *)
Theorem getFilterName_collisions (t1 t2 : string) :
  (forall r, getFilterName t1 r = getFilterName t2 r <-> t1 = t2) /\
  (getFilterName t1 true = getFilterName t2 false <->
   t1 = ("Nullable" ++ t2)%string) /\
  getFilterName t1 true <> getFilterName t1 false.
Proof.
  assert (getFilterName t1 true = getFilterName t2 false <->
          t1 = ("Nullable" ++ t2)%string) as Hcross.
  { unfold getFilterName.
    change ("" ++ t1 ++ "Filter")%string with (t1 ++ "Filter")%string.
    rewrite <- append_assoc. split.
    - apply append_inv_tail.
    - now intros ->. }
  split; [|split; [exact Hcross|]].
  - intros r. split; [|now intros ->].
    unfold getFilterName. intros H.
    destruct r; simpl in H.
    + now apply append_inv_tail in H.
    + injection H as H. now apply append_inv_tail in H.
  - intros H.
    assert (t1 = ("Nullable" ++ t1)%string) as E.
    { unfold getFilterName in H.
      change ("" ++ t1 ++ "Filter")%string with (t1 ++ "Filter")%string in H.
      rewrite <- append_assoc in H. now apply append_inv_tail in H. }
    apply (f_equal String.length) in E. rewrite length_app in E.
    simpl in E. lia.
Qed.

(** X4.  Every filter type of the factory asks for at least one of its args,
    and every arg of it is optional, marked scalar and not enum, and has no
    [isRelationFilter]; the list-valued args are exactly [in] and
    [notIn]. *)
Theorem filter_type_args_flags (type : string) (isRequired isScalar : bool) :
  InputType.atLeastOne (makeFilterType type isRequired isScalar) =
    Some true /\
  Forall
    (fun a =>
       SchemaArg.isRequired a = false /\
       SchemaArg.isScalar a = true /\
       SchemaArg.isEnum a = false /\
       SchemaArg.isRelationFilter a = None /\
       (SchemaArg.isList a = true <->
        In (SchemaArg.name a) ["in"; "notIn"]))
    (InputType.args (makeFilterType type isRequired isScalar)).
Proof.
  split; [reflexivity|].
  assert (forall names ty,
            (forall n, In n names -> ~ In n ["in"; "notIn"]) ->
            Forall
              (fun a =>
                 SchemaArg.isRequired a = false /\
                 SchemaArg.isScalar a = true /\
                 SchemaArg.isEnum a = false /\
                 SchemaArg.isRelationFilter a = None /\
                 (SchemaArg.isList a = true <->
                  In (SchemaArg.name a) ["in"; "notIn"]))
              (getScalarArgs names ty false)) as Hplain.
  { intros names ty Hnames. unfold getScalarArgs.
    apply Forall_map, Forall_forall. intros n Hn. cbn.
    repeat split; try discriminate. intros H. now apply Hnames in H. }
  assert (Forall
            (fun a =>
               SchemaArg.isRequired a = false /\
               SchemaArg.isScalar a = true /\
               SchemaArg.isEnum a = false /\
               SchemaArg.isRelationFilter a = None /\
               (SchemaArg.isList a = true <->
                In (SchemaArg.name a) ["in"; "notIn"]))
            (getInclusionFilters type)) as Hincl.
  { repeat constructor; cbn; tauto. }
  assert (forall r, Forall
            (fun a =>
               SchemaArg.isRequired a = false /\
               SchemaArg.isScalar a = true /\
               SchemaArg.isEnum a = false /\
               SchemaArg.isRelationFilter a = None /\
               (SchemaArg.isList a = true <->
                In (SchemaArg.name a) ["in"; "notIn"]))
            (getBaseFilters type r)) as Hbase.
  { intros r. unfold getBaseFilters. apply Forall_app. split; apply Hplain;
      intros n [<-|[]] [H|[H|[]]]; discriminate. }
  assert (forall n, In n ["lt"; "lte"; "gt"; "gte"] ->
                    ~ In n ["in"; "notIn"]) as Halpha
    by (intros n [<-|[<-|[<-|[<-|[]]]]] [H|[H|[]]]; discriminate).
  assert (forall n, In n ["contains"; "startsWith"; "endsWith"] ->
                    ~ In n ["in"; "notIn"]) as Hstr
    by (intros n [<-|[<-|[<-|[]]]] [H|[H|[]]]; discriminate).
  assert (forall n, In n ["every"; "some"; "none"] ->
                    ~ In n ["in"; "notIn"]) as Hrel
    by (intros n [<-|[<-|[<-|[]]]] [H|[H|[]]]; discriminate).
  unfold makeFilterType. cbn [InputType.args].
  destruct isScalar; [|now apply Hplain].
  unfold getScalarFilterArgs.
  destruct (_ || _); [|destruct (_ || _); [|destruct (_ =? _)]].
  - apply Forall_app; split; [apply Hbase|].
    apply Forall_app; split; [exact Hincl|].
    apply Forall_app; split; now apply Hplain.
  - apply Forall_app; split; [apply Hbase|].
    apply Forall_app; split; [exact Hincl | now apply Hplain].
  - apply Hbase.
  - constructor.
Qed.

(** X5.  What the operators of a scalar filter type accept: [equals] the base
    type, and [null] when the field is optional; [not] the same and the
    filter type itself, by its name; every other operator the base type
    alone. *)
Theorem scalar_filter_operand_types (type : string) (isRequired : bool)
  (a : SchemaArg.t) :
  In a (InputType.args (makeFilterType type isRequired true)) ->
  SchemaArg.type a =
    if SchemaArg.name a =? "equals" then type :: nullArrayOf isRequired
    else if SchemaArg.name a =? "not" then
      type :: nullArrayOf isRequired ++
      [InputType.name (makeFilterType type isRequired true)]
    else [type].
Proof.
  unfold makeFilterType. cbn [InputType.args InputType.name negb].
  rewrite orb_false_r. unfold getScalarFilterArgs.
  destruct (_ || _); [|destruct (_ || _); [|destruct (_ =? _)]];
    cbn; intros H;
    repeat (destruct H as [<-|H]; [reflexivity|]); contradiction.
Qed.

Lemma scalar_filter_operand_types_witness :
  SchemaArg.type (getScalarArg "not" ["String"; "null"; "NullableStringFilter"] false) =
  ["String"; "null"; "NullableStringFilter"].
Proof.
  apply (scalar_filter_operand_types "String" false
           (getScalarArg "not" ["String"; "null"; "NullableStringFilter"]
              false)).
  cbn. tauto.
Defined.

(** X6.  The operators of the filter types, by base type: the text types
    [String], [ID] and [UUID] have the base, inclusion, ordering and text
    operators; [Int], [Float] and [DateTime] the base, inclusion and ordering
    operators; [Boolean] the base operators alone.  A relation filter has the
    quantifiers [every], [some] and [none], each accepting the where-type of
    the related entity, and its name is never a [Nullable] one. *)
Theorem filter_type_operators (type : string) (isRequired : bool) :
  (In type textTypes ->
   map SchemaArg.name
     (InputType.args (makeFilterType type isRequired true)) =
   ["equals"; "not"; "in"; "notIn"; "lt"; "lte"; "gt"; "gte";
    "contains"; "startsWith"; "endsWith"]) /\
  (In type orderedTypes ->
   map SchemaArg.name
     (InputType.args (makeFilterType type isRequired true)) =
   ["equals"; "not"; "in"; "notIn"; "lt"; "lte"; "gt"; "gte"]) /\
  (type = "Boolean" ->
   map SchemaArg.name
     (InputType.args (makeFilterType type isRequired true)) =
   ["equals"; "not"]) /\
  InputType.name (makeFilterType type isRequired false) =
    (type ++ "Filter")%string /\
  map (fun a => (SchemaArg.name a, SchemaArg.type a))
    (InputType.args (makeFilterType type isRequired false)) =
  [("every", [(type ++ "WhereInput")%string]);
   ("some", [(type ++ "WhereInput")%string]);
   ("none", [(type ++ "WhereInput")%string])].
Proof.
  split; [|split; [|split; [|split]]].
  - intros [<-|[<-|[<-|[]]]]; reflexivity.
  - intros [<-|[<-|[<-|[]]]]; reflexivity.
  - intros ->. reflexivity.
  - unfold makeFilterType. cbn. now rewrite orb_true_r.
  - reflexivity.
Qed.

(** X7.  A field that is no relation and whose type is none of the seven
    known base types (an enum, for one) gets a filter type without any
    operator; the arg of the field refers to that filter type all the
    same. *)
Theorem unknown_type_filter_is_empty (f : Field.t) :
  isRelation (Field.kind f) = false ->
  ~ In (Field.type f) knownTypes ->
  InputType.args (filterTypeOf f) = [] /\
  In (InputType.name (filterTypeOf f)) (SchemaArg.type (fieldArg f)).
Proof.
  intros Hrel Hunknown. split.
  - unfold filterTypeOf, makeFilterType. rewrite Hrel.
    cbn [negb InputType.args]. unfold getScalarFilterArgs.
    repeat match goal with
    | |- context [Field.type f =? ?s] =>
        destruct (String.eqb_spec (Field.type f) s) as [E|_];
        [exfalso; apply Hunknown; rewrite E; cbn; tauto|]
    end.
    reflexivity.
  - rewrite filterTypeOf_name.
    unfold fieldArg, fieldFilterName, requiredEffective. cbn.
    apply in_or_app. right. now left.
Qed.

Lemma unknown_type_filter_is_empty_witness :
  InputType.args (filterTypeOf (Field.mk "role" "Role" enum false true)) =
    [] /\
  In (InputType.name (filterTypeOf (Field.mk "role" "Role" enum false true)))
     (SchemaArg.type (fieldArg (Field.mk "role" "Role" enum false true))).
Proof.
  apply (unknown_type_filter_is_empty (Field.mk "role" "Role" enum false true)).
  - reflexivity.
  - cbn. intros [H|[H|[H|[H|[H|[H|[H|[]]]]]]]]; discriminate.
Defined.

(** ** Further properties of the where-pass on a document *)

(** X8.  The where-pass keeps the places and the names of the input types:
    at the place of an input type its output has a type of the same name,
    which is the input type itself when the name does not end in
    [WhereInput]. *)
Theorem where_pass_keeps_names_and_places {V : Type}
  (document : Document.t V) (i : nat) (type : InputType.t) :
  nth_error (Schema.inputTypes (Document.schema document)) i = Some type ->
  exists type',
    nth_error
      (Schema.inputTypes
         (Document.schema (transformWhereInputTypes document))) i =
      Some type' /\
    InputType.name type' = InputType.name type /\
    (Js.endsWith (InputType.name type) "WhereInput" = false ->
     type' = type).
Proof.
  intros Hi. eexists. split; [apply (where_nth document i type Hi)|].
  unfold rewrittenType, modelOf.
  destruct (Js.endsWith (InputType.name type) "WhereInput").
  - split; [|discriminate]. now destruct (findModel _ _).
  - now split.
Qed.

Lemma where_pass_keeps_names_and_places_witness :
  exists type',
    nth_error
      (Schema.inputTypes
         (Document.schema (transformWhereInputTypes eventDocument))) 1 =
      Some type' /\
    InputType.name type' = "MutationType" /\
    (Js.endsWith "MutationType" "WhereInput" = false ->
     type' = plainInputType "MutationType" []).
Proof.
  apply (where_pass_keeps_names_and_places eventDocument 1
           (plainInputType "MutationType" [])).
  reflexivity.
Defined.

Lemma flat_map_all_nil {A B : Type} (g : A -> list B) (l : list A) :
  (forall x, In x l -> g x = []) -> flat_map g l = [].
Proof.
  induction l as [|x l IH]; intros H; [reflexivity|].
  cbn [flat_map]. rewrite (H x) by now left.
  apply IH. intros y Hy. apply H. now right.
Qed.

(** X9.  When no input type is named after a model, that is, none has the
    name of a model followed by [WhereInput], the where-pass returns the
    input types as they are and appends no filter type. *)
Theorem where_pass_without_where_types {V : Type} (document : Document.t V) :
  (forall type m,
     In type (Schema.inputTypes (Document.schema document)) ->
     In m (Datamodel.models (Document.datamodel document)) ->
     InputType.name type <> (Model.name m ++ "WhereInput")%string) ->
  Schema.inputTypes (Document.schema (transformWhereInputTypes document)) =
  Schema.inputTypes (Document.schema document).
Proof.
  intros Hnone.
  assert (forall type,
            In type (Schema.inputTypes (Document.schema document)) ->
            modelOf (Datamodel.models (Document.datamodel document)) type =
            None) as Hmodel.
  { intros type Hin. unfold modelOf.
    destruct (Js.endsWith (InputType.name type) "WhereInput") eqn:E;
      [|reflexivity].
    apply endsWith_iff in E as [entity E]. rewrite E, strip_suffix.
    apply findModel_none. intros m Hm <-. now apply (Hnone type m). }
  rewrite where_inputTypes. unfold whereLoop.
  rewrite whereFold_snd_eq. unfold processedFields.
  replace (flat_map _ _) with (@nil Field.t).
  - cbn [mapFields snd dictValues map]. rewrite app_nil_r.
    rewrite <- (map_id (Schema.inputTypes (Document.schema document))) at 2.
    apply map_ext_in. intros type Hin. unfold rewrittenType.
    now rewrite Hmodel.
  - symmetry. apply flat_map_all_nil. intros type Hin.
    unfold filteredFields. now rewrite Hmodel.
Qed.

Lemma where_pass_without_where_types_witness :
  Schema.inputTypes
    (Document.schema (transformWhereInputTypes eventDocument)) =
  Schema.inputTypes (Document.schema eventDocument).
Proof.
  apply (where_pass_without_where_types eventDocument).
  intros type m _ [].
Defined.

(** The names on the white list of a model. *)
Lemma whiteList_spec (model : Model.t) (n : string) :
  Js.arrayIncludes (whiteListOf model) n = true <->
  In n ["AND"; "OR"; "NOT"] \/
  exists f, In f (Model.fields model) /\ Field.kind f = relation /\
            Field.isList f = false /\ Field.name f = n.
Proof.
  unfold Js.arrayIncludes, whiteListOf. rewrite existsb_exists. split.
  - intros (x & Hx & E). apply String.eqb_eq in E. subst x.
    apply in_app_or in Hx as [Hx|Hx]; [now left|]. right.
    apply in_map_iff in Hx as (f & Hf & Hin).
    apply filter_In in Hin as [Hin Hsel]. unfold isSingleRelation in Hsel.
    apply andb_true_iff in Hsel as [Hk Hl]. apply negb_true_iff in Hl.
    exists f. repeat split; try assumption.
    now destruct (Field.kind f).
  - intros H. exists n. split; [|apply String.eqb_refl].
    apply in_or_app. destruct H as [H|(f & Hin & Hk & Hl & Hn)];
      [now left|].
    right. apply in_map_iff. exists f. split; [assumption|].
    apply filter_In. split; [assumption|].
    unfold isSingleRelation. now rewrite Hk, Hl.
Qed.

(** X10.  The args of a rewritten where-type are the args built for the
    selected fields of the model and, of the original args, exactly those
    whose name is [AND], [OR], [NOT] or the name of a single relation of the
    model, each with [isRelationFilter] set and nothing else changed; every
    other original arg is dropped. *)
Theorem rewritten_args_membership {V : Type} (document : Document.t V)
  (i : nat) (type : InputType.t) (entity : string) (model : Model.t) :
  nth_error (Schema.inputTypes (Document.schema document)) i = Some type ->
  InputType.name type = (entity ++ "WhereInput")%string ->
  findModel (Datamodel.models (Document.datamodel document)) entity =
    Some model ->
  exists newType,
    nth_error
      (Schema.inputTypes
         (Document.schema (transformWhereInputTypes document))) i =
      Some newType /\
    forall a,
      In a (InputType.args newType) <->
      (exists f, In f (Model.fields model) /\ hasFilterArg f = true /\
                 a = fst (fieldFilterArg f [])) \/
      (exists a0, In a0 (InputType.args type) /\
                  a = SchemaArg.markRelationFilter a0 /\
                  (In (SchemaArg.name a0) ["AND"; "OR"; "NOT"] \/
                   exists f, In f (Model.fields model) /\
                             Field.kind f = relation /\
                             Field.isList f = false /\
                             Field.name f = SchemaArg.name a0)).
Proof.
  intros Hi Hname Hmodel. eexists. split.
  - rewrite (where_nth document i type Hi). unfold rewrittenType.
    rewrite (modelOf_entity _ type entity Hname), Hmodel. reflexivity.
  - intros a. cbn [InputType.args]. rewrite in_app_iff.
    unfold retainedArgs. rewrite !in_map_iff.
    split; intros [H|H]; [left|right|left|right].
    + destruct H as (f & <- & Hin). apply filter_In in Hin as [Hin Hsel].
      now exists f.
    + destruct H as (a0 & <- & Hin). apply filter_In in Hin as [Hin Hsel].
      exists a0. repeat split; try assumption. now apply whiteList_spec.
    + destruct H as (f & Hin & Hsel & ->). exists f.
      split; [reflexivity|]. now apply filter_In.
    + destruct H as (a0 & Hin & -> & Hwl). exists a0.
      split; [reflexivity|]. apply filter_In. split; [assumption|].
      now apply whiteList_spec.
Qed.

Lemma rewritten_args_membership_witness :
  exists newType,
    nth_error
      (Schema.inputTypes
         (Document.schema (transformWhereInputTypes personDocument))) 0 =
      Some newType /\
    forall a,
      In a (InputType.args newType) <->
      (exists f, In f (Model.fields personModel) /\ hasFilterArg f = true /\
                 a = fst (fieldFilterArg f [])) \/
      (exists a0,
         In a0 [plainArg "AND" "PersonWhereInput"] /\
         a = SchemaArg.markRelationFilter a0 /\
         (In (SchemaArg.name a0) ["AND"; "OR"; "NOT"] \/
          exists f, In f (Model.fields personModel) /\
                    Field.kind f = relation /\
                    Field.isList f = false /\
                    Field.name f = SchemaArg.name a0)).
Proof.
  apply (rewritten_args_membership personDocument 0
           (plainInputType "PersonWhereInput"
              [plainArg "AND" "PersonWhereInput"])
           "Person" personModel); reflexivity.
Defined.

(** ** Further properties of the order-pass and of the whole transformation *)

(** The [reduce] of the order-pass as a filter followed by a map. *)
Lemma orderArgNames_eq (values : list string) :
  orderArgNames values =
  map (fun v => Js.slice v 0 (Js.lastIndexOf v "_ASC"))
    (filter (fun v => Js.endsWith v "ASC") values).
Proof.
  induction values as [|v values IH]; [reflexivity|].
  unfold orderArgNames. cbn [fold_left filter].
  rewrite orderArgNames_from, IH.
  now destruct (Js.endsWith v "ASC").
Qed.

Lemma filter_twice {A : Type} (p : A -> bool) (l : list A) :
  filter p (filter p l) = filter p l.
Proof.
  induction l as [|x l IH]; [reflexivity|].
  cbn [filter]. destruct (p x) eqn:E; [|exact IH].
  cbn [filter]. now rewrite E, IH.
Qed.

(** X11.  The order-pass keeps the input types it is given and appends, for
    every enum whose name ends in [OrderByInput], an input type of the same
    name with [isOrderType], [atLeastOne] and [atMostOne] set.  That type has
    one arg for each value of the enum that ends in [ASC], in the order of
    the values, and each arg has the type [[OrderByArg]], is marked scalar
    and is neither a list nor required nor an enum. *)
Theorem order_pass_input_types {V : Type} (document : Document.t V)
  (e : Enum.t) :
  In e (Schema.enums (Document.schema document)) ->
  Js.endsWith (Enum.name e) "OrderByInput" = true ->
  exists added type,
    Schema.inputTypes (Document.schema (transformOrderInputTypes document)) =
      Schema.inputTypes (Document.schema document) ++ added /\
    In type added /\
    InputType.name type = Enum.name e /\
    InputType.isOrderType type = Some true /\
    InputType.atLeastOne type = Some true /\
    InputType.atMostOne type = Some true /\
    List.length (InputType.args type) =
      List.length
        (filter (fun v => Js.endsWith v "ASC") (Enum.values e)) /\
    Forall
      (fun a =>
         SchemaArg.type a = ["OrderByArg"] /\
         SchemaArg.isScalar a = true /\
         SchemaArg.isList a = false /\
         SchemaArg.isRequired a = false /\
         SchemaArg.isEnum a = false)
      (InputType.args type).
Proof.
  intros Hin Hname.
  destruct (order_schema document) as [E _].
  eexists. exists (orderInputType e).
  split; [exact E|]. split.
  - apply in_map, filter_In. now split.
  - unfold orderInputType. cbn [InputType.name InputType.isOrderType
      InputType.atLeastOne InputType.atMostOne InputType.args].
    repeat split.
    + now rewrite length_map, orderArgNames_eq, length_map.
    + apply Forall_map, Forall_forall. intros n _. cbn. now repeat split.
Qed.

Lemma order_pass_input_types_witness :
  exists added type,
    Schema.inputTypes (Document.schema (transformOrderInputTypes roleDocument)) =
      Schema.inputTypes (Document.schema roleDocument) ++ added /\
    In type added /\
    InputType.name type = "UserOrderByInput" /\
    InputType.isOrderType type = Some true /\
    InputType.atLeastOne type = Some true /\
    InputType.atMostOne type = Some true /\
    List.length (InputType.args type) = 1 /\
    Forall
      (fun a =>
         SchemaArg.type a = ["OrderByArg"] /\
         SchemaArg.isScalar a = true /\
         SchemaArg.isList a = false /\
         SchemaArg.isRequired a = false /\
         SchemaArg.isEnum a = false)
      (InputType.args type).
Proof.
  apply (order_pass_input_types roleDocument
           (Enum.mk "UserOrderByInput" ["id_ASC"; "id_DESC"])).
  - right. now left.
  - reflexivity.
Defined.

(** X12.  The enums of the final document are [OrderByArg] followed by the
    enums of the input whose name does not end in [OrderByInput], in their
    order; so no enum of the final document has such a name. *)
Theorem final_enums_without_order_enums {V : Type}
  (document : Document.t V) :
  Schema.enums (Document.schema (transformDmmf document)) =
    OrderByArg ::
    filter (fun e => negb (Js.endsWith (Enum.name e) "OrderByInput"))
      (Schema.enums (Document.schema document)) /\
  forall e,
    In e (Schema.enums (Document.schema (transformDmmf document))) ->
    Js.endsWith (Enum.name e) "OrderByInput" = false.
Proof.
  rewrite final_enums. split; [reflexivity|].
  intros e [<-|Hin]; [reflexivity|].
  apply filter_In in Hin as [_ H]. now apply negb_true_iff in H.
Qed.

(** X13.  The transformation is not idempotent: applied to its own output it
    puts a second [OrderByArg] in front of the enums, whatever the
    document. *)
Theorem transform_twice_enums {V : Type} (document : Document.t V) :
  Schema.enums (Document.schema (transformDmmf (transformDmmf document))) =
  OrderByArg :: OrderByArg ::
  filter (fun e => negb (Js.endsWith (Enum.name e) "OrderByInput"))
    (Schema.enums (Document.schema document)).
Proof.
  rewrite !final_enums. cbn [filter].
  change (negb (isOrderByInput OrderByArg)) with true. cbn iota.
  now rewrite filter_twice.
Qed.

(** X14.  The transformation leaves the data model, the mappings, the queries
    and the mutations as they are, and its output types are those of the
    input after the finishing filter: neither the where-pass nor the
    order-pass touches them. *)
Theorem transform_keeps_untouched_parts {V : Type}
  (document : Document.t V) :
  Document.datamodel (transformDmmf document) = Document.datamodel document /\
  Document.mappings (transformDmmf document) = Document.mappings document /\
  Schema.queries (Document.schema (transformDmmf document)) =
    Schema.queries (Document.schema document) /\
  Schema.mutations (Document.schema (transformDmmf document)) =
    Schema.mutations (Document.schema document) /\
  Schema.outputTypes (Document.schema (transformDmmf document)) =
    filterOutputTypes (Schema.outputTypes (Document.schema document)).
Proof.
  unfold transformDmmf, transformOrderInputTypes, transformWhereInputTypes.
  destruct (whereLoop _ _) as [inputTypes filterTypes].
  cbn [Document.schema Document.datamodel Document.mappings Schema.enums
       Schema.inputTypes Schema.queries Schema.mutations Schema.outputTypes].
  destruct (fold_left orderStep _ _) as [inputTypes' enums].
  now repeat split.
Qed.

(** X15.  How the passes compose on the input types: the finishing filter is
    applied to the rewritten input types, followed by the filter types of
    the where-pass, followed by the input types made of the order-by enums,
    in this order. *)
Theorem final_input_types_composition {V : Type} (document : Document.t V) :
  Schema.inputTypes (Document.schema (transformDmmf document)) =
  filterInputTypes
    (map (rewrittenType (Datamodel.models (Document.datamodel document)))
       (Schema.inputTypes (Document.schema document)) ++
     dictValues
       (snd (mapFields
               (processedFields
                  (Datamodel.models (Document.datamodel document))
                  (Schema.inputTypes (Document.schema document)))
               [])) ++
     map orderInputType
       (filter (fun e => Js.endsWith (Enum.name e) "OrderByInput")
          (Schema.enums (Document.schema document)))).
Proof.
  unfold transformDmmf. cbn [Document.schema Schema.inputTypes].
  destruct (order_schema (transformWhereInputTypes document)) as [-> _].
  rewrite where_inputTypes, where_enums, <- app_assoc.
  unfold whereLoop. now rewrite whereFold_snd_eq.
Qed.

(** X16.  For an order-by enum all of whose values that end in [ASC] end in
    [_ASC], as the values [f_ASC] and [f_DESC] made for the orderable fields
    do, the input type the order-pass appends has an arg named [n] exactly
    when [n_ASC] is a value of the enum. *)
Theorem order_type_args_of_conforming_values {V : Type}
  (document : Document.t V) (e : Enum.t) :
  In e (Schema.enums (Document.schema document)) ->
  Js.endsWith (Enum.name e) "OrderByInput" = true ->
  (forall v, In v (Enum.values e) ->
             Js.endsWith v "ASC" = true -> Js.endsWith v "_ASC" = true) ->
  exists type,
    In type
      (Schema.inputTypes
         (Document.schema (transformOrderInputTypes document))) /\
    InputType.name type = Enum.name e /\
    forall n,
      In n (map SchemaArg.name (InputType.args type)) <->
      In (n ++ "_ASC")%string (Enum.values e).
Proof.
  intros Hin Hname Hvalues. exists (orderInputType e).
  destruct (order_schema document) as [-> _]. split; [|split].
  - apply in_or_app. right. apply in_map, filter_In. now split.
  - reflexivity.
  - intros n. unfold orderInputType. cbn [InputType.args].
    rewrite map_map. cbn [orderArg SchemaArg.name]. rewrite map_id.
    rewrite orderArgNames_eq, in_map_iff. split.
    + intros (v & <- & Hv). apply filter_In in Hv as [Hv Hasc].
      apply (Hvalues v Hv) in Hasc. apply endsWith_iff in Hasc as [p ->].
      now rewrite strip_suffix.
    + intros Hv. exists (n ++ "_ASC")%string.
      split; [apply strip_suffix|]. apply filter_In. split; [assumption|].
      change "_ASC" with ("_" ++ "ASC")%string.
      rewrite <- append_assoc. apply endsWith_app.
Qed.

Lemma order_type_args_of_conforming_values_witness :
  exists type,
    In type
      (Schema.inputTypes
         (Document.schema (transformOrderInputTypes roleDocument))) /\
    InputType.name type = "UserOrderByInput" /\
    forall n,
      In n (map SchemaArg.name (InputType.args type)) <->
      In (n ++ "_ASC")%string ["id_ASC"; "id_DESC"].
Proof.
  apply (order_type_args_of_conforming_values roleDocument
           (Enum.mk "UserOrderByInput" ["id_ASC"; "id_DESC"])).
  - right. now left.
  - reflexivity.
  - intros v [<-|[<-|[]]]; [reflexivity | discriminate].
Defined.
